(** * Semantic navigator: scan, clustering, presentation and request routing

    A shallow embedding of [mcp-semantic-navigator/server.py].

    Modelling conventions.
    - Python [str] values are [string]s; [str.lower], [str.capitalize] act on
      the ASCII letters (characters outside A-Z / a-z are left unchanged).
    - A [pathlib.Path] is the list of its [parts] (POSIX flavour).
    - A Python [dict] is an association list in insertion order, looked up
      by first match.
    - Code that can raise returns a [result]; [try ... except Exception] is a
      match on that result.
    - What the operating system and the interpreter decide (what a path
      resolves to, whether a walk of the tree raises, what [json.loads] and
      [json.dumps] give) is a field of [runtime].
    - The functions return what the code returns; what it prints is given
      apart, as a list of events (see Diagnostics). *)

From Stdlib Require Import String Ascii List Bool Arith ZArith Lia.
From Stdlib Require Import Permutation Sorted DecimalString.
Import ListNotations.
Set Warnings "-register-all".
Local Open Scope string_scope.
Local Open Scope list_scope.

(** ** Python strings *)

Module PyStr.

Definition nl : string := String (ascii_of_nat 10) EmptyString.

Definition lower_ascii (c : ascii) : ascii :=
  let n := nat_of_ascii c in
  if Nat.leb 65 n && Nat.leb n 90 then ascii_of_nat (n + 32) else c.

Definition upper_ascii (c : ascii) : ascii :=
  let n := nat_of_ascii c in
  if Nat.leb 97 n && Nat.leb n 122 then ascii_of_nat (n - 32) else c.

(** [s.lower()] *)
Fixpoint lower (s : string) : string :=
  match s with
  | EmptyString => EmptyString
  | String c t => String (lower_ascii c) (lower t)
  end.

(** [s.capitalize()]: first character upper-cased, the rest lower-cased. *)
Definition capitalize (s : string) : string :=
  match s with
  | EmptyString => EmptyString
  | String c t => String (upper_ascii c) (lower t)
  end.

(** [needle in hay] *)
Fixpoint contains (needle hay : string) : bool :=
  if String.prefix needle hay then true
  else match hay with
       | EmptyString => false
       | String _ t => contains needle t
       end.

(** [s.startswith(p)] *)
Definition startswith (p s : string) : bool := String.prefix p s.

(** [s.endswith(suf)] *)
Fixpoint endswith (suf s : string) : bool :=
  if String.eqb suf s then true
  else match s with
       | EmptyString => false
       | String _ t => endswith suf t
       end.

(** [s.split(sep)] for a one-character separator. *)
Fixpoint split_on (sep : ascii) (s : string) : list string :=
  match s with
  | EmptyString => [EmptyString]
  | String c t =>
      if Ascii.eqb c sep then EmptyString :: split_on sep t
      else match split_on sep t with
           | [] => [String c EmptyString]
           | h :: r => String c h :: r
           end
  end.

(** [sep.join(l)] *)
Fixpoint join (sep : string) (l : list string) : string :=
  match l with
  | [] => EmptyString
  | [x] => x
  | x :: r => (x ++ sep ++ join sep r)%string
  end.

(** [x in l] for a list of strings. *)
Definition mem (x : string) (l : list string) : bool :=
  existsb (String.eqb x) l.

(** [''.join(l)] *)
Definition cat (l : list string) : string := fold_right String.append EmptyString l.

(** [str(n)] for a non-negative integer. *)
Definition of_nat (n : nat) : string :=
  NilZero.string_of_uint (Nat.to_uint n).

End PyStr.

Import PyStr.

(** ** pathlib (POSIX flavour) *)

Definition Path := list string.

(** The anchor of a path string: [/] for one or for three and more leading
    slashes, [//] for exactly two. *)
Definition anchor (s : string) : list string :=
  match s with
  | String "/" (String "/" (String "/" _)) => ["/"]
  | String "/" (String "/" _) => ["//"]
  | String "/" _ => ["/"]
  | _ => []
  end.

(** [Path(s).parts]: the anchor, then the segments between slashes, with empty
    segments and [.] segments dropped. *)
Definition parts (s : string) : Path :=
  anchor s ++
  filter (fun c => negb (String.eqb c "") && negb (String.eqb c "."))
         (split_on "/" s).

(** [str(p)] *)
Definition path_str (p : Path) : string :=
  match p with
  | [] => "."
  | a :: r =>
      if String.eqb a "/" || String.eqb a "//" then (a ++ join "/" r)%string
      else join "/" p
  end.

(** [p.relative_to(base)]: [None] stands for the ValueError. *)
Fixpoint relative_to (p base : Path) : option Path :=
  match base with
  | [] => Some p
  | b :: base' =>
      match p with
      | [] => None
      | a :: p' => if String.eqb a b then relative_to p' base' else None
      end
  end.

(** ** File records *)

Record file_info : Type := mk_file_info {
  path : string;
  full_path : string;
  content : string;
  size : nat;
  extension : string
}.

(** ** Clusterer *)

(** The [for part in parts] loop of the [else] branch: the key it assigns
    before its [break], or [None] when it runs to the end. *)
Fixpoint fallback_key (parts : Path) : option string :=
  match parts with
  | [] => None
  | part :: rest =>
      if negb (mem part ["."; ".."; "src"]) then Some (capitalize part)
      else fallback_key rest
  end.

(** The cluster label computed in the body of the loop of
    [simple_semantic_clustering]: the if / elif chain, then the fallback. *)
Definition cluster_key (path : string) : string :=
  let parts := parts path in
  if contains "component" (lower path) || mem "components" parts then
    "UI Components"
  else if contains "hook" (lower path) || mem "hooks" parts then
    "React Hooks"
  else if contains "service" (lower path) || mem "services" parts then
    "Services & APIs"
  else if contains "util" (lower path) || mem "utils" parts
          || contains "helper" (lower path) then
    "Utilities & Helpers"
  else if contains "type" (lower path) || mem "types" parts
          || contains "interface" (lower path) then
    "Type Definitions"
  else if contains "test" (lower path) || endswith ".test.ts" path
          || endswith ".test.tsx" path then
    "Tests"
  else if contains "config" (lower path) || contains "setup" (lower path) then
    "Configuration"
  else if existsb (fun p => mem p parts) ["auth"; "login"; "session"] then
    "Authentication"
  else if existsb (fun p => mem p parts) ["db"; "database"; "model"; "models"] then
    "Database & Models"
  else if existsb (fun p => mem p parts) ["api"; "route"; "routes"; "endpoint"] then
    "API Routes"
  else
    match fallback_key parts with
    | Some key => key
    | None => "Other"
    end.

(** The [clusters] dict: cluster name to list of records, in insertion order. *)
Definition cluster_map := list (string * list file_info).

Module Dict.

Section Ops.
Context {V : Type}.

(** [key in d] *)
Definition mem (key : string) (d : list (string * V)) : bool :=
  existsb (fun kv => String.eqb (fst kv) key) d.

(** [d[key] = v]: replaces in place, or appends a new key at the end. *)
Fixpoint set (key : string) (v : V) (d : list (string * V)) : list (string * V) :=
  match d with
  | [] => [(key, v)]
  | (k, w) :: r => if String.eqb k key then (k, v) :: r else (k, w) :: set key v r
  end.

(** [d.get(key)] *)
Fixpoint get (key : string) (d : list (string * V)) : option V :=
  match d with
  | [] => None
  | (k, w) :: r => if String.eqb k key then Some w else get key r
  end.

(** In-place update of the value stored under [key] (a mutation through the
    reference [d[key]]). *)
Fixpoint update (key : string) (f : V -> V) (d : list (string * V)) : list (string * V) :=
  match d with
  | [] => []
  | (k, w) :: r => if String.eqb k key then (k, f w) :: r else (k, w) :: update key f r
  end.

End Ops.

End Dict.

(** One iteration of the loop: create the bucket if missing, then append. *)
Definition cluster_step (clusters : cluster_map) (f : file_info) : cluster_map :=
  let cluster_key := cluster_key (path f) in
  let clusters :=
    if negb (Dict.mem cluster_key clusters) then Dict.set cluster_key [] clusters
    else clusters in
  Dict.update cluster_key (fun l => l ++ [f]) clusters.

Definition simple_semantic_clustering (files : list file_info) : cluster_map :=
  fold_left cluster_step files [].

(** *** The documented predicate table *)

Module SpecTable.

(** A rule reads the lower-cased path, the path as given and its parts. *)
Record rule : Type := mk_rule {
  matches : string -> string -> Path -> bool;
  label : string
}.

Definition has_component (names : list string) (ps : Path) : bool :=
  existsb (fun n => mem n ps) names.

(** Rules 1 to 10, in the documented order. *)
Definition table : list rule :=
  [ mk_rule (fun lo _ ps => contains "component" lo || has_component ["components"] ps)
            "UI Components";
    mk_rule (fun lo _ ps => contains "hook" lo || has_component ["hooks"] ps)
            "React Hooks";
    mk_rule (fun lo _ ps => contains "service" lo || has_component ["services"] ps)
            "Services & APIs";
    mk_rule (fun lo _ ps => (contains "util" lo || contains "helper" lo)
                            || has_component ["utils"] ps)
            "Utilities & Helpers";
    mk_rule (fun lo _ ps => (contains "type" lo || contains "interface" lo)
                            || has_component ["types"] ps)
            "Type Definitions";
    mk_rule (fun lo p _ => contains "test" lo
                           || existsb (fun suf => endswith suf p) [".test.ts"; ".test.tsx"])
            "Tests";
    mk_rule (fun lo _ _ => contains "config" lo || contains "setup" lo)
            "Configuration";
    mk_rule (fun _ _ ps => has_component ["auth"; "login"; "session"] ps)
            "Authentication";
    mk_rule (fun _ _ ps => has_component ["db"; "database"; "model"; "models"] ps)
            "Database & Models";
    mk_rule (fun _ _ ps => has_component ["api"; "route"; "routes"; "endpoint"] ps)
            "API Routes" ].

(** Rule 11: the first component other than [.], [..] and [src], capitalized;
    [Other] when there is none. *)
Definition fallback (ps : Path) : string :=
  match find (fun c => negb (String.eqb c "." || String.eqb c ".." || String.eqb c "src")) ps with
  | Some c => capitalize c
  | None => "Other"
  end.

(** First match wins. *)
Fixpoint first_match (rules : list rule) (lo p : string) (ps : Path) : option string :=
  match rules with
  | [] => None
  | r :: rest => if matches r lo p ps then Some (label r) else first_match rest lo p ps
  end.

Definition assigned_label (p : string) : string :=
  match first_match table (lower p) p (parts p) with
  | Some l => l
  | None => fallback (parts p)
  end.

End SpecTable.

(** ** FileScanner *)

(** A directory tree, as the walk of [rglob] sees it.  [Dir entries] is a
    real directory with the entries that listing it yields.  [File None] is
    an entry whose [read_text] raises (permission denied, deleted while
    scanning).  The walk neither descends into a symbolic link to a directory
    nor lists a directory it has no permission to list (a PermissionError of
    the listing is swallowed): such an entry is a directory without entries
    here, [Dir []], and what lies behind it is not part of the tree. *)
Inductive node : Type :=
| File (text : option string)
| Dir (entries : list (string * node)).

(** [at_path n rel m]: following the names [rel] down from [n] reaches [m]. *)
Inductive at_path : node -> list string -> node -> Prop :=
| at_here n : at_path n [] n
| at_child entries name child rel m :
    In (name, child) entries ->
    at_path child rel m ->
    at_path (Dir entries) (name :: rel) m.

(** What the operating system resolves a path to, if anything. *)
Definition fsys := Path -> option node.

(** [file_path.read_text(...)]: [None] when it raises, as it does on a
    directory. *)
Definition read_text (n : node) : option string :=
  match n with
  | File text => text
  | Dir _ => None
  end.

(** The entries below [n] that [rglob('*' + ext)] yields, each with its path:
    the matching entries of a directory, then those of its subdirectories.
    The pattern is read as a literal suffix, which is what the glob means for
    an extension without [*], [?], [[] and [/] (see [literal_extension]); the
    default extensions, the only ones the server passes, are such. *)
Fixpoint rglob_node (ext : string) (here : Path) (n : node) : list (Path * node) :=
  match n with
  | File _ => []
  | Dir entries =>
      map (fun e => (here ++ [fst e], snd e))
          (filter (fun e => endswith ext (fst e)) entries)
      ++ (fix sub (es : list (string * node)) : list (Path * node) :=
            match es with
            | [] => []
            | (name, child) :: es' => rglob_node ext (here ++ [name]) child ++ sub es'
            end) entries
  end.

(** [repo.rglob('*' + ext)] when the walk completes: nothing when [repo] is
    missing or not a directory.  A walk that raises (the root cannot be
    examined, a directory fails to list with an error other than a
    PermissionError, the recursion limit is hit) is outside this function:
    the exception leaves [scan_code_files], and is modelled where it is
    called, in [scan_arg]. *)
Definition rglob (fs : fsys) (repo : Path) (ext : string) : list (Path * node) :=
  match fs repo with
  | Some (Dir entries) => rglob_node ext repo (Dir entries)
  | Some (File _) => []
  | None => []
  end.

Definition default_extensions : list string :=
  [".ts"; ".tsx"; ".js"; ".jsx"; ".py"; ".java"; ".go"; ".rs"].

Definition denylist : list string :=
  ["node_modules"; "dist"; "build"; "__pycache__"].

Definition excluded_part (part : string) : bool :=
  startswith "." part || mem part denylist.

(** The [continue] test of the scan. *)
Definition skipped (file_path : Path) : bool := existsb excluded_part file_path.

(** The body of the inner loop for one candidate: no record or one. *)
Definition scan_entry (repo : Path) (ext : string) (c : Path * node) : list file_info :=
  let (file_path, n) := c in
  if skipped file_path then []
  else
    match read_text n with
    | None => []
    | Some content =>
        match relative_to file_path repo with
        | None => []
        | Some rel =>
            [ {| path := path_str rel;
                 full_path := path_str file_path;
                 content := substring 0 2000 content;
                 size := String.length content;
                 extension := ext |} ]
        end
    end.

(** The list that [scan_code_files] returns when no walk raises. *)
Definition scan_code_files (fs : fsys) (repo_path : string)
    (extensions : option (list string)) : list file_info :=
  let extensions :=
    match extensions with
    | None => default_extensions
    | Some l => l
    end in
  let repo := parts repo_path in
  flat_map (fun ext => flat_map (scan_entry repo ext) (rglob fs repo ext)) extensions.

(** ** JSON values and Python exceptions *)

(** Decoded JSON (numbers restricted to integers). *)
Inductive json : Type :=
| JNull
| JBool (b : bool)
| JInt (z : Z)
| JStr (s : string)
| JArr (l : list json)
| JObj (o : list (string * json)).

Inductive result (A : Type) : Type :=
| Ok (a : A)
| Raise (msg : string).
Arguments Ok {A} a.
Arguments Raise {A} msg.

Definition bind {A B : Type} (r : result A) (k : A -> result B) : result B :=
  match r with
  | Ok a => k a
  | Raise msg => Raise msg
  end.

Notation "x <- r ;; k" := (bind r (fun x => k))
  (at level 61, r at next level, right associativity).

Definition type_name (v : json) : string :=
  match v with
  | JNull => "NoneType"
  | JBool _ => "bool"
  | JInt _ => "int"
  | JStr _ => "str"
  | JArr _ => "list"
  | JObj _ => "dict"
  end.

(** [v.get(key, default)]: AttributeError unless [v] is a dict. *)
Definition py_get (v : json) (key : string) (default : json) : result json :=
  match v with
  | JObj o =>
      Ok (match Dict.get key o with
          | Some x => x
          | None => default
          end)
  | _ => Raise ("'" ++ type_name v ++ "' object has no attribute 'get'")%string
  end.

(** [v == s] for a string literal [s]. *)
Definition str_eq (v : json) (s : string) : bool :=
  match v with
  | JStr t => String.eqb t s
  | _ => false
  end.

(** The outcome of [json.loads(line)]: a value, a JSONDecodeError, or another
    exception (a ValueError for an integer with too many digits, a
    RecursionError for deep nesting) with its message. *)
Inductive decoded : Type :=
| Decoded (v : json)
| JSONDecodeError
| LoadsError (message : string).

(** A walk that does not complete: the messages that the scan logged before,
    and the message of the exception that [rglob] raised. *)
Record interrupted : Type := mk_interrupted {
  logged_before : list string;
  raised : string
}.

(** The parts of the Python runtime and of the machine that the server relies
    on and that are not modelled further. *)
Record runtime : Type := mk_runtime {
  fs : fsys;
  (** whether the walks of a scan from this root raise: the stat of the root
      fails with an error other than not-found and not-a-directory (name too
      long, no permission on a parent), a directory fails to list with an
      error other than a PermissionError, or the recursion limit is hit *)
  walk_failure : Path -> option interrupted;
  (** [json.dumps(v, indent=...)] *)
  json_dumps : option nat -> json -> string;
  (** [json.loads(line)] *)
  json_loads : string -> decoded;
  (** [str(v)] for a value that is not a string *)
  py_repr : json -> string;
  (** the message of the TypeError of [Path(v)] for a value that is not a
      string *)
  path_type_error : json -> string
}.

(** [f'{v}'] *)
Definition py_str (rt : runtime) (v : json) : string :=
  match v with
  | JStr s => s
  | _ => py_repr rt v
  end.

(** The call [scan_code_files(repo_path)] on a decoded argument: [Path]
    raises a TypeError on a value that is no string, and an exception of
    [rglob], which is outside the [try] of the scan, leaves the function. *)
Definition scan_arg (rt : runtime) (repo_path : json) : result (list file_info) :=
  match repo_path with
  | JStr s =>
      match walk_failure rt (parts s) with
      | Some w => Raise (raised w)
      | None => Ok (scan_code_files (fs rt) s None)
      end
  | _ => Raise (path_type_error rt repo_path)
  end.

(** ** Presenter *)

Definition json_of_nat (n : nat) : json := JInt (Z.of_nat n).

(** The [result] dict built for [index_repository]. *)
Definition summarize (files : list file_info) (clusters : cluster_map) : json :=
  JObj
    [ ("total_files", json_of_nat (length files));
      ("total_clusters", json_of_nat (length clusters));
      ("clusters",
       JObj (map (fun c : string * list file_info =>
                    let (name, files_list) := c in
                    (name,
                     JObj [ ("file_count", json_of_nat (length files_list));
                            ("files", JArr (map (fun f => JStr (path f))
                                                (firstn 10 files_list)));
                            ("sample_file",
                             match files_list with
                             | f :: _ => JStr (path f)
                             | [] => JNull
                             end) ]))
                 clusters)) ].

(** [sorted(l, key=key, reverse=True)]: descending, and stable (elements with
    equal keys keep their order). *)
Fixpoint insert_desc {A : Type} (key : A -> nat) (x : A) (l : list A) : list A :=
  match l with
  | [] => [x]
  | y :: r => if Nat.ltb (key x) (key y) then y :: insert_desc key x r else x :: y :: r
  end.

Definition sorted_desc {A : Type} (key : A -> nat) (l : list A) : list A :=
  fold_right (insert_desc key) [] l.

Definition file_count (c : string * list file_info) : nat := length (snd c).

(** The [overview] text built for [get_cluster_overview], one [+=] at a
    time. *)
Definition render_section (overview : string) (c : string * list file_info) : string :=
  let (name, files_list) := c in
  let overview :=
    (overview ++ "## " ++ name ++ " (" ++ of_nat (length files_list) ++ " files)" ++ nl)%string in
  let overview := (overview ++ "Files:" ++ nl)%string in
  let overview :=
    fold_left (fun ov f => (ov ++ "- " ++ path f ++ nl)%string)
              (firstn 5 files_list) overview in
  let overview :=
    if Nat.ltb 5 (length files_list)
    then (overview ++ "- ... and " ++ of_nat (length files_list - 5) ++ " more" ++ nl)%string
    else overview in
  (overview ++ nl)%string.

Definition render_overview (files : list file_info) (clusters : cluster_map) : string :=
  let overview := ("# Semantic Code Architecture" ++ nl ++ nl)%string in
  let overview :=
    (overview ++ "**Total Files**: " ++ of_nat (length files) ++ nl)%string in
  let overview :=
    (overview ++ "**Conceptual Areas**: " ++ of_nat (length clusters) ++ nl ++ nl)%string in
  fold_left render_section (sorted_desc file_count clusters) overview.

(** The structured reading of the overview: heading, then sections. *)
Module Overview.

Record section : Type := mk_section {
  name : string;
  count : nat;
  samples : list string;
  more : option nat
}.

Definition heading (total_files areas : nat) : string :=
  ("# Semantic Code Architecture" ++ nl ++ nl
   ++ "**Total Files**: " ++ of_nat total_files ++ nl
   ++ "**Conceptual Areas**: " ++ of_nat areas ++ nl ++ nl)%string.

Definition lines (s : section) : list string :=
  [("## " ++ name s ++ " (" ++ of_nat (count s) ++ " files)")%string; "Files:"]
  ++ map (fun p => ("- " ++ p)%string) (samples s)
  ++ match more s with
     | Some n => [("- ... and " ++ of_nat n ++ " more")%string]
     | None => []
     end
  ++ [""].

(** Every line followed by a newline. *)
Definition text (s : section) : string :=
  cat (map (fun l => (l ++ nl)%string) (lines s)).

Definition of_cluster (c : string * list file_info) : section :=
  {| name := fst c;
     count := length (snd c);
     samples := map path (firstn 5 (snd c));
     more := if Nat.ltb 5 (length (snd c)) then Some (length (snd c) - 5) else None |}.

End Overview.

(** ** RequestRouter *)

Definition METHOD_NOT_FOUND : Z := (-32601)%Z.
Definition INTERNAL_ERROR : Z := (-32603)%Z.

Definition success (request_id result : json) : json :=
  JObj [("jsonrpc", JStr "2.0"); ("id", request_id); ("result", result)].

Definition failure (request_id : json) (code : Z) (message : string) : json :=
  JObj [ ("jsonrpc", JStr "2.0");
         ("id", request_id);
         ("error", JObj [("code", JInt code); ("message", JStr message)]) ].

(** The [content] payload carrying one text. *)
Definition text_content (text : string) : json :=
  JObj [("content", JArr [JObj [("type", JStr "text"); ("text", JStr text)]])].

Definition initialize_result : json :=
  JObj [ ("protocolVersion", JStr "0.1.0");
         ("capabilities", JObj [("tools", JObj [])]);
         ("serverInfo", JObj [ ("name", JStr "semantic-navigator");
                               ("version", JStr "0.1.0") ]) ].

Definition tool_schema (name description path_description : string) : json :=
  JObj [ ("name", JStr name);
         ("description", JStr description);
         ("inputSchema",
          JObj [ ("type", JStr "object");
                 ("properties",
                  JObj [("path", JObj [ ("type", JStr "string");
                                        ("description", JStr path_description) ])]);
                 ("required", JArr [JStr "path"]) ]) ].

Definition tools_list_result : json :=
  JObj [("tools",
         JArr [ tool_schema "index_repository"
                  "Create a semantic index of a code repository (100% local, no API keys needed)"
                  "Path to the repository to index";
                tool_schema "get_cluster_overview"
                  "Get a semantic overview of the codebase architecture"
                  "Path to the repository" ])].

(** The return that follows the if / elif chain. *)
Definition unknown_method (rt : runtime) (method request_id : json) : json :=
  failure request_id METHOD_NOT_FOUND ("Method not found: " ++ py_str rt method)%string.

(** The body of the [try] block of [handle_request]. *)
Definition dispatch (rt : runtime) (method params request_id : json) : result json :=
  if str_eq method "initialize" then
    Ok (success request_id initialize_result)
  else if str_eq method "tools/list" then
    Ok (success request_id tools_list_result)
  else if str_eq method "tools/call" then
    tool_name <- py_get params "name" JNull ;;
    tool_args <- py_get params "arguments" (JObj []) ;;
    if str_eq tool_name "index_repository" then
      repo_path <- py_get tool_args "path" (JStr ".") ;;
      files <- scan_arg rt repo_path ;;
      let clusters := simple_semantic_clustering files in
      let result := summarize files clusters in
      Ok (success request_id (text_content (json_dumps rt (Some 2) result)))
    else if str_eq tool_name "get_cluster_overview" then
      repo_path <- py_get tool_args "path" (JStr ".") ;;
      files <- scan_arg rt repo_path ;;
      let clusters := simple_semantic_clustering files in
      Ok (success request_id (text_content (render_overview files clusters)))
    else
      Ok (unknown_method rt method request_id)
  else
    Ok (unknown_method rt method request_id).

(** [handle_request]: the three reads of the request come before the [try];
    the [except Exception] clause turns whatever the body raises into an
    internal-error envelope. *)
Definition handle_request (rt : runtime) (request : json) : result json :=
  method <- py_get request "method" JNull ;;
  params <- py_get request "params" (JObj []) ;;
  request_id <- py_get request "id" JNull ;;
  match dispatch rt method params request_id with
  | Ok response => Ok response
  | Raise e => Ok (failure request_id INTERNAL_ERROR ("Internal error: " ++ e)%string)
  end.

(** ** ServerLoop *)

(** What one input line adds to stdout: nothing when [json.loads] raises or
    when [handle_request] itself raises, one encoded response otherwise. *)
Definition serve_line (rt : runtime) (line : string) : list string :=
  match json_loads rt line with
  | Decoded request =>
      match handle_request rt request with
      | Ok response => [json_dumps rt None response]
      | Raise _ => []
      end
  | JSONDecodeError => []
  | LoadsError _ => []
  end.

(** The loop of [main] over the lines that the iteration of [sys.stdin]
    yields, threading the lines written to stdout so far. *)
Fixpoint main (rt : runtime) (stdin stdout : list string) : list string :=
  match stdin with
  | [] => stdout
  | line :: rest => main rt rest (stdout ++ serve_line rt line)
  end.

(** One step of the iteration [for line in sys.stdin]: a line, or the
    exception that decoding the input raises. *)
Inductive read : Type :=
| Line (line : string)
| ReadError (message : string).

(** [main] on what the successive reads give: the iteration is outside every
    [try], so an exception of a read ends the loop and leaves [main]; the
    result is what was written to stdout, and that exception if any. *)
Fixpoint main_process (rt : runtime) (input : list read) (stdout : list string)
    : list string * option string :=
  match input with
  | [] => (stdout, None)
  | Line line :: rest => main_process rt rest (stdout ++ serve_line rt line)
  | ReadError message :: _ => (stdout, Some message)
  end.

(** Accessors used to state what a response is. *)
Definition field (key : string) (v : json) : option json :=
  match v with
  | JObj o => Dict.get key o
  | _ => None
  end.

Definition error_code (response : json) : option json :=
  match field "error" response with
  | Some e => field "code" e
  | None => None
  end.

Definition error_message (response : json) : option json :=
  match field "error" response with
  | Some e => field "message" e
  | None => None
  end.

(** The text of a tool response: [response['result']['content'][0]['text']],
    as the client reads it, when the content is one item of type text. *)
Definition response_text (response : json) : option string :=
  match field "result" response with
  | Some result =>
      match field "content" result with
      | Some (JArr [item]) =>
          match field "type" item, field "text" item with
          | Some (JStr "text"), Some (JStr text) => Some text
          | _, _ => None
          end
      | _ => None
      end
  | None => None
  end.

(** A request envelope. *)
Definition request (request_id : json) (method : string) (params : json) : json :=
  JObj [("jsonrpc", JStr "2.0"); ("id", request_id); ("method", JStr method);
        ("params", params)].

Definition tool_call (request_id : json) (tool : string) (arguments : json) : json :=
  request request_id "tools/call" (JObj [("name", JStr tool); ("arguments", arguments)]).

(** ** A small machine for examples *)

Module Sample.

Definition tree : node :=
  Dir [ ("README.md", File (Some "# readme"));
        ("src",
         Dir [ ("components", Dir [("Button.tsx", File (Some "export const Button = 1"))]);
               ("hooks", Dir [("useAuth.ts", File (Some "export const useAuth = 2"))]);
               ("utils", Dir [("format.ts", File (Some "export const format = 3"))]);
               ("node_modules", Dir [("dep.js", File (Some "module.exports = 4"))]);
               ("locked.py", File None) ]);
        (".git", Dir [("hook.py", File (Some "pass"))]) ].

(** The tree is the current directory, and is also reachable as [proj],
    [.cache/proj] and [build/proj]; [notes.txt] is a regular file. *)
Definition files : fsys := fun p =>
  match p with
  | [] => Some tree
  | ["proj"] => Some tree
  | [".cache"; "proj"] => Some tree
  | ["build"; "proj"] => Some tree
  | ["notes.txt"] => Some (File (Some "hello"))
  | _ => None
  end.

(** Stand-ins for the runtime: the values are irrelevant to the results
    below. *)
Definition loads (line : string) : decoded :=
  if String.eqb line "init" then Decoded (request (JInt 1) "initialize" (JObj []))
  else if String.eqb line "bad-params" then Decoded (request (JInt 2) "tools/call" JNull)
  else if String.eqb line "list" then Decoded (JArr [])
  else if String.eqb line "digits" then
    LoadsError "Exceeds the limit (4300 digits) for integer string conversion"
  else JSONDecodeError.

Definition rt : runtime :=
  {| fs := files;
     walk_failure := fun _ => None;
     json_dumps := fun _ v => match v with JObj _ => "{...}" | _ => "..." end;
     json_loads := loads;
     py_repr := fun _ => "<repr>";
     path_type_error := fun _ => "expected str, bytes or os.PathLike object" |}.

(** A name of 256 characters: no such entry exists, and the stat of the root
    fails with ENAMETOOLONG, which [is_dir] does not swallow. *)
Definition long_name : string := cat (repeat "a" 256).

Definition name_too_long : string :=
  ("[Errno 36] File name too long: '" ++ long_name ++ "'")%string.

(** The same machine, on which moreover the current directory holds a
    directory that fails to list with an input/output error. *)
Definition rt_failing : runtime :=
  {| fs := files;
     walk_failure := fun p =>
       match p with
       | [] => Some (mk_interrupted [] "[Errno 5] Input/output error: 'vendor'")
       | [name] =>
           if String.eqb name long_name then Some (mk_interrupted [] name_too_long)
           else None
       | _ => None
       end;
     json_dumps := fun _ v => match v with JObj _ => "{...}" | _ => "..." end;
     json_loads := loads;
     py_repr := fun _ => "<repr>";
     path_type_error := fun _ => "expected str, bytes or os.PathLike object" |}.

End Sample.

(** ** Vocabulary of the statements *)

(** A path component that the scan refuses: a hidden entry, or one of the
    denylisted directory names. *)
Definition hidden_or_denylisted (part : string) : Prop :=
  (exists t, part = String "." t)
  \/ In part ["node_modules"; "dist"; "build"; "__pycache__"].

(** The records of [seen] whose label is [k], in the order of [seen]. *)
Definition bucket (k : string) (seen : list file_info) : list file_info :=
  filter (fun f => String.eqb (cluster_key (path f)) k) seen.

Definition bucket_entry (k : string) (seen : list file_info) : option (list file_info) :=
  match bucket k seen with
  | [] => None
  | l => Some l
  end.

(** The state of the clustering loop after the records [seen]. *)
Definition clustered (clusters : cluster_map) (seen : list file_info) : Prop :=
  NoDup (map fst clusters)
  /\ (forall k, Dict.get k clusters = bucket_entry k seen)
  /\ Permutation (concat (map snd clusters)) seen.

(** The fields of a request object, with the defaults of [handle_request]. *)
Definition method_of (o : list (string * json)) : json :=
  match Dict.get "method" o with
  | Some m => m
  | None => JNull
  end.

Definition params_of (o : list (string * json)) : json :=
  match Dict.get "params" o with
  | Some p => p
  | None => JObj []
  end.

Definition request_id_of (o : list (string * json)) : json :=
  match Dict.get "id" o with
  | Some i => i
  | None => JNull
  end.

(** The request object [o] is a tools/call of [tool]; [arguments] is what its
    params hold under that key, if anything. *)
Definition calls_tool (o : list (string * json)) (tool : string)
    (arguments : option json) : Prop :=
  Dict.get "method" o = Some (JStr "tools/call")
  /\ exists ps, Dict.get "params" o = Some (JObj ps)
                /\ Dict.get "name" ps = Some (JStr tool)
                /\ Dict.get "arguments" ps = arguments.



(** What the summary says of one cluster. *)
Definition cluster_summary (files_list : list file_info) (v : json) : Prop :=
  exists sample_paths,
    v = JObj [ ("file_count", JInt (Z.of_nat (length files_list)));
               ("files", JArr (map JStr sample_paths));
               ("sample_file", match files_list with
                               | f :: _ => JStr (path f)
                               | [] => JNull
                               end) ]
    /\ sample_paths = map path (firstn 10 files_list)
    /\ length sample_paths = Nat.min 10 (length files_list).


(** The distinct elements of a list, each at its first occurrence. *)
Fixpoint first_seen (l : list string) : list string :=
  match l with
  | [] => []
  | x :: r => x :: filter (fun y => negb (String.eqb y x)) (first_seen r)
  end.

(** The label of a record. *)
Definition label_of (f : file_info) : string := cluster_key (path f).

(** A tools/call that the dispatch cannot carry out: the params are no
    object, or a known tool is called with arguments that are no object or
    with a [path] that is no string. *)
Definition malformed_call (method params : json) : bool :=
  str_eq method "tools/call"
  && match params with
     | JObj ps =>
         let tool_name := match Dict.get "name" ps with Some n => n | None => JNull end in
         (str_eq tool_name "index_repository" || str_eq tool_name "get_cluster_overview")
         && match Dict.get "arguments" ps with
            | None => false
            | Some (JObj a) =>
                match Dict.get "path" a with
                | None => false
                | Some (JStr _) => false
                | Some _ => true
                end
            | Some _ => true
            end
     | _ => true
     end.

(** The decoded line is a request object. *)
Definition decodes_to_object (rt : runtime) (line : string) : bool :=
  match json_loads rt line with
  | Decoded (JObj _) => true
  | _ => false
  end.

(** The root that a well-typed call of one of the two tools scans: the [path]
    of its arguments, or [.] when there are no arguments or no [path]. *)
Definition scanned_root (method params : json) : option string :=
  if str_eq method "tools/call" then
    match params with
    | JObj ps =>
        let tool_name := match Dict.get "name" ps with Some n => n | None => JNull end in
        if str_eq tool_name "index_repository" || str_eq tool_name "get_cluster_overview"
        then match Dict.get "arguments" ps with
             | None => Some "."
             | Some (JObj a) =>
                 match Dict.get "path" a with
                 | None => Some "."
                 | Some (JStr p) => Some p
                 | Some _ => None
                 end
             | Some _ => None
             end
        else None
    | _ => None
    end
  else None.

(** An extension that the glob ['*' + ext] matches as a literal suffix: it
    has none of the characters [*], [?] and [[], which the glob reads as
    wildcards, and no [/], which would split the pattern. *)
Fixpoint literal_extension (ext : string) : bool :=
  match ext with
  | EmptyString => true
  | String c t =>
      negb (Ascii.eqb c "*" || Ascii.eqb c "?" || Ascii.eqb c "[" || Ascii.eqb c "/")
      && literal_extension t
  end.

(** The lines that the iteration yields before a read raises. *)
Fixpoint lines_read (input : list read) : list string :=
  match input with
  | Line line :: rest => line :: lines_read rest
  | _ => []
  end.

(** The exception that ends the iteration, if any. *)
Fixpoint read_failure (input : list read) : option string :=
  match input with
  | [] => None
  | Line _ :: rest => read_failure rest
  | ReadError message :: _ => Some message
  end.

(** File names as a file system has them: not empty, not [.], without a
    slash. *)
Fixpoint no_slash (s : string) : bool :=
  match s with
  | EmptyString => true
  | String c t => negb (Ascii.eqb c "/") && no_slash t
  end.

Definition valid_name (s : string) : bool :=
  negb (String.eqb s "") && negb (String.eqb s ".") && no_slash s.

(** A tree all of whose entries have such names. *)
Fixpoint valid_tree (n : node) : bool :=
  match n with
  | File _ => true
  | Dir entries =>
      (fix all (es : list (string * node)) : bool :=
         match es with
         | [] => true
         | (name, child) :: es' => valid_name name && valid_tree child && all es'
         end) entries
  end.

(** ** Diagnostics *)

(** What the code of the server writes, in order, one event for each [print]:
    the text printed to stdout or to stderr, without the newline that [print]
    adds (the text itself may hold newlines, as a logged input line does).
    The traceback that the interpreter prints when [main] is left by an
    exception is not among them. *)
Inductive event : Type :=
| Stdout (line : string)
| Stderr (line : string).

(** [log(message)] *)
Definition log (message : string) : event :=
  Stderr ("[semantic-navigator] " ++ message)%string.

(** The texts of the exceptions that the scan catches: of [read_text] on a
    path, and of [relative_to]. *)
Record messages : Type := mk_messages {
  read_error : Path -> string;
  subpath_error : Path -> Path -> string
}.

(** What the body of the inner loop of [scan_code_files] logs for one
    candidate: nothing when it is skipped or recorded, one line when reading
    it raises. *)
Definition scan_entry_log (ms : messages) (repo : Path) (c : Path * node) : list event :=
  let (file_path, n) := c in
  if skipped file_path then []
  else
    match read_text n with
    | None =>
        [log ("Skipping " ++ path_str file_path ++ ": " ++ read_error ms file_path)%string]
    | Some _ =>
        match relative_to file_path repo with
        | None =>
            [log ("Skipping " ++ path_str file_path ++ ": "
                  ++ subpath_error ms file_path repo)%string]
        | Some _ => []
        end
    end.

(** What [scan_code_files] logs. *)
Definition scan_code_files_log (ms : messages) (fs : fsys) (repo_path : string)
    (extensions : option (list string)) : list event :=
  let extensions :=
    match extensions with
    | None => default_extensions
    | Some l => l
    end in
  let repo := parts repo_path in
  flat_map (fun ext => flat_map (scan_entry_log ms repo) (rglob fs repo ext)) extensions.

(** What the call [scan_code_files(repo_path)] logs on a decoded argument:
    nothing when [Path(repo_path)] raises, and what was logged before the
    exception when a walk raises. *)
Definition scan_arg_log (ms : messages) (rt : runtime) (repo_path : json) : list event :=
  match repo_path with
  | JStr s =>
      match walk_failure rt (parts s) with
      | Some w => map log (logged_before w)
      | None => scan_code_files_log ms (fs rt) s None
      end
  | _ => []
  end.

(** What the [try] body of [handle_request] logs. *)
Definition dispatch_log (ms : messages) (rt : runtime) (method params : json) : list event :=
  if str_eq method "initialize" then []
  else if str_eq method "tools/list" then []
  else if str_eq method "tools/call" then
    match py_get params "name" JNull, py_get params "arguments" (JObj []) with
    | Ok tool_name, Ok tool_args =>
        if str_eq tool_name "index_repository" then
          match py_get tool_args "path" (JStr ".") with
          | Ok repo_path =>
              log ("Indexing repository at " ++ py_str rt repo_path)%string
              :: scan_arg_log ms rt repo_path
          | Raise _ => []
          end
        else if str_eq tool_name "get_cluster_overview" then
          match py_get tool_args "path" (JStr ".") with
          | Ok repo_path => scan_arg_log ms rt repo_path
          | Raise _ => []
          end
        else []
    | _, _ => []
    end
  else [].

(** What [handle_request] logs: the lines of the body, then the line of the
    [except] clause when the body raised. *)
Definition handle_request_log (ms : messages) (rt : runtime) (request : json) : list event :=
  match request with
  | JObj o =>
      dispatch_log ms rt (method_of o) (params_of o)
      ++ match dispatch rt (method_of o) (params_of o) (request_id_of o) with
         | Ok _ => []
         | Raise e => [log ("Error handling request: " ++ e)%string]
         end
  | _ => []
  end.

(** What the body of the loop of [main] writes for one line. *)
Definition serve_line_events (ms : messages) (rt : runtime) (line : string) : list event :=
  match json_loads rt line with
  | Decoded request =>
      match handle_request rt request with
      | Ok response =>
          handle_request_log ms rt request ++ [Stdout (json_dumps rt None response)]
      | Raise e => handle_request_log ms rt request ++ [log ("Error: " ++ e)%string]
      end
  | JSONDecodeError => [log ("Invalid JSON: " ++ line)%string]
  | LoadsError e => [log ("Error: " ++ e)%string]
  end.

Fixpoint serve_events (ms : messages) (rt : runtime) (stdin : list string)
    (written : list event) : list event :=
  match stdin with
  | [] => written
  | line :: rest => serve_events ms rt rest (written ++ serve_line_events ms rt line)
  end.

(** Everything [main] writes for the lines that the iteration yields. *)
Definition main_events (ms : messages) (rt : runtime) (stdin : list string) : list event :=
  serve_events ms rt stdin [log "Semantic Navigator MCP Server starting..."].

Definition stdout_of (events : list event) : list string :=
  flat_map (fun e => match e with Stdout l => [l] | Stderr _ => [] end) events.

Definition stderr_of (events : list event) : list string :=
  flat_map (fun e => match e with Stdout _ => [] | Stderr l => [l] end) events.

(** An event written by [log]. *)
Definition is_log (e : event) : Prop := exists message, e = log message.

(** * Properties *)

Local Arguments String.eqb : simpl never.
Local Arguments String.append : simpl never.

(** ** Dictionaries *)

Section DictFacts.
Context {V : Type}.
Implicit Types (d : list (string * V)) (k key : string).

Lemma get_set key v d k :
  Dict.get k (Dict.set key v d) = if String.eqb k key then Some v else Dict.get k d.
Proof.
  induction d as [|[k0 w] r IH]; simpl.
  - rewrite String.eqb_sym. reflexivity.
  - destruct (String.eqb k0 key) eqn:E0; simpl.
    + apply String.eqb_eq in E0. subst k0.
      rewrite (String.eqb_sym key k). destruct (String.eqb k key); reflexivity.
    + destruct (String.eqb k0 k) eqn:E1.
      * apply String.eqb_eq in E1. subst k0. rewrite E0. reflexivity.
      * exact IH.
Qed.

Lemma get_update key (g : V -> V) d k :
  Dict.get k (Dict.update key g d) =
  if String.eqb k key then option_map g (Dict.get key d) else Dict.get k d.
Proof.
  induction d as [|[k0 w] r IH]; simpl.
  - destruct (String.eqb k key); reflexivity.
  - destruct (String.eqb k0 key) eqn:E0; simpl.
    + apply String.eqb_eq in E0. subst k0.
      rewrite (String.eqb_sym key k). destruct (String.eqb k key); reflexivity.
    + destruct (String.eqb k0 k) eqn:E1.
      * apply String.eqb_eq in E1. subst k0. rewrite E0. reflexivity.
      * exact IH.
Qed.

Lemma mem_get key d : Dict.mem key d = true <-> Dict.get key d <> None.
Proof.
  induction d as [|[k0 w] r IH]; simpl.
  - split; [discriminate | congruence].
  - destruct (String.eqb k0 key); simpl.
    + split; [discriminate | reflexivity].
    + exact IH.
Qed.

Lemma mem_keys key d : Dict.mem key d = true <-> In key (map fst d).
Proof.
  unfold Dict.mem. rewrite existsb_exists. split.
  - intros [[k0 w] [Hin E]]. simpl in E. apply String.eqb_eq in E. subst.
    apply (in_map fst) in Hin. exact Hin.
  - intros Hin. apply in_map_iff in Hin. destruct Hin as [[k0 w] [E Hin]].
    simpl in E. subst. exists (key, w). split; [exact Hin | apply String.eqb_refl].
Qed.

Lemma keys_update key (g : V -> V) d : map fst (Dict.update key g d) = map fst d.
Proof.
  induction d as [|[k0 w] r IH]; simpl; [reflexivity|].
  destruct (String.eqb k0 key); simpl; [reflexivity | now rewrite IH].
Qed.

Lemma keys_set key v d :
  map fst (Dict.set key v d) = if Dict.mem key d then map fst d else map fst d ++ [key].
Proof.
  induction d as [|[k0 w] r IH]; simpl; [reflexivity|].
  destruct (String.eqb k0 key); simpl; [reflexivity|].
  rewrite IH. destruct (Dict.mem key r); reflexivity.
Qed.

Lemma in_get d k v : NoDup (map fst d) -> (In (k, v) d <-> Dict.get k d = Some v).
Proof.
  induction d as [|[k0 w] r IH]; simpl; intros Hnd.
  - split; [tauto | discriminate].
  - inversion Hnd as [|? ? Hnotin Hnd']; subst.
    destruct (String.eqb k0 k) eqn:E.
    + apply String.eqb_eq in E. subst k0. split.
      * intros [H | H]; [congruence|].
        exfalso. apply Hnotin. apply (in_map fst) in H. exact H.
      * intros H. left. congruence.
    + apply String.eqb_neq in E. rewrite <- (IH Hnd'). split.
      * intros [H | H]; [congruence | exact H].
      * intros H. right. exact H.
Qed.

End DictFacts.

(** ** Clusterer *)

Lemma bucket_snoc k seen f :
  bucket k (seen ++ [f]) =
  bucket k seen ++ (if String.eqb (cluster_key (path f)) k then [f] else []).
Proof. unfold bucket. rewrite filter_app. reflexivity. Qed.

(** The loop body, by cases on whether the bucket exists. *)
Lemma cluster_step_get clusters f k :
  Dict.get k (cluster_step clusters f) =
  if String.eqb k (cluster_key (path f))
  then Some (match Dict.get k clusters with Some l => l | None => [] end ++ [f])
  else Dict.get k clusters.
Proof.
  unfold cluster_step.
  destruct (Dict.mem (cluster_key (path f)) clusters) eqn:M; simpl.
  - rewrite get_update. destruct (String.eqb k (cluster_key (path f))) eqn:E; [|reflexivity].
    apply String.eqb_eq in E. subst k.
    apply mem_get in M. destruct (Dict.get (cluster_key (path f)) clusters); [reflexivity | congruence].
  - rewrite get_update, !get_set, String.eqb_refl. simpl.
    destruct (String.eqb k (cluster_key (path f))) eqn:E; [|reflexivity].
    apply String.eqb_eq in E. subst k.
    destruct (Dict.get (cluster_key (path f)) clusters) eqn:G; [|reflexivity].
    assert (Dict.mem (cluster_key (path f)) clusters = true) by (apply mem_get; congruence).
    congruence.
Qed.

Lemma cluster_step_keys clusters f :
  NoDup (map fst clusters) -> NoDup (map fst (cluster_step clusters f)).
Proof.
  intros Hnd. unfold cluster_step.
  destruct (Dict.mem (cluster_key (path f)) clusters) eqn:M; simpl;
    rewrite keys_update; [exact Hnd|].
  rewrite keys_set, M.
  apply NoDup_app; [exact Hnd | repeat constructor; simpl; tauto |].
  intros x Hx Hx'. simpl in Hx'. destruct Hx' as [<- | []].
  apply mem_keys in Hx. congruence.
Qed.

Lemma set_fresh {V : Type} key (v : V) d :
  Dict.mem key d = false -> Dict.set key v d = d ++ [(key, v)].
Proof.
  induction d as [|[k0 w] r IH]; simpl; [reflexivity|].
  destruct (String.eqb k0 key); simpl; [discriminate|].
  intros M. now rewrite IH.
Qed.

Lemma update_fresh {V : Type} key (g : V -> V) v d :
  Dict.mem key d = false ->
  Dict.update key g (d ++ [(key, v)]) = d ++ [(key, g v)].
Proof.
  induction d as [|[k0 w] r IH]; simpl.
  - now rewrite String.eqb_refl.
  - destruct (String.eqb k0 key); simpl; [discriminate|].
    intros M. now rewrite IH.
Qed.

Lemma update_concat key f (d : cluster_map) :
  Dict.mem key d = true ->
  Permutation (concat (map snd (Dict.update key (fun l => l ++ [f]) d)))
              (concat (map snd d) ++ [f]).
Proof.
  induction d as [|[k0 w] r IH]; simpl; [discriminate|].
  destruct (String.eqb k0 key); simpl; intros M.
  - rewrite <- !app_assoc. apply Permutation_app_head, Permutation_app_comm.
  - rewrite <- app_assoc. apply Permutation_app_head, IH, M.
Qed.

Lemma cluster_step_concat clusters f :
  Permutation (concat (map snd (cluster_step clusters f)))
              (concat (map snd clusters) ++ [f]).
Proof.
  unfold cluster_step.
  destruct (Dict.mem (cluster_key (path f)) clusters) eqn:M; simpl.
  - apply update_concat, M.
  - rewrite (set_fresh _ _ _ M), (update_fresh _ _ _ _ M).
    rewrite map_app, concat_app. simpl. reflexivity.
Qed.

Lemma clustered_step clusters seen f :
  clustered clusters seen -> clustered (cluster_step clusters f) (seen ++ [f]).
Proof.
  intros (Hnd & Hget & Hperm). repeat split.
  - apply cluster_step_keys, Hnd.
  - intros k. rewrite cluster_step_get, Hget. unfold bucket_entry.
    rewrite bucket_snoc, (String.eqb_sym k).
    destruct (String.eqb (cluster_key (path f)) k).
    + destruct (bucket k seen); reflexivity.
    + rewrite app_nil_r. reflexivity.
  - rewrite cluster_step_concat. apply Permutation_app_tail, Hperm.
Qed.

Lemma clustered_fold files : forall clusters seen,
  clustered clusters seen ->
  clustered (fold_left cluster_step files clusters) (seen ++ files).
Proof.
  induction files as [|f files IH]; simpl; intros clusters seen H.
  - now rewrite app_nil_r.
  - replace (seen ++ f :: files) with ((seen ++ [f]) ++ files)
      by (now rewrite <- app_assoc).
    apply IH, clustered_step, H.
Qed.

Lemma clustering_clustered files :
  clustered (simple_semantic_clustering files) files.
Proof.
  apply (clustered_fold files [] []).
  repeat split; [constructor | reflexivity].
Qed.

Lemma in_bucket k seen f :
  In f (bucket k seen) <-> In f seen /\ cluster_key (path f) = k.
Proof.
  unfold bucket. rewrite filter_In, String.eqb_eq. reflexivity.
Qed.

(** Membership in the result, spelled out. *)
Lemma in_clustering files k l :
  In (k, l) (simple_semantic_clustering files) <-> l <> [] /\ l = bucket k files.
Proof.
  destruct (clustering_clustered files) as (Hnd & Hget & _).
  rewrite (in_get _ _ _ Hnd), Hget. unfold bucket_entry.
  destruct (bucket k files) as [|x r]; split.
  - discriminate.
  - intros [H1 H2]. congruence.
  - intros H. injection H as <-. split; [discriminate | reflexivity].
  - intros [_ ->]. reflexivity.
Qed.

Lemma fallback_key_spec (ps : Path) :
  match fallback_key ps with
  | Some key => key
  | None => "Other"
  end = SpecTable.fallback ps.
Proof.
  unfold SpecTable.fallback.
  induction ps as [|c r IH]; [reflexivity|].
  cbn [fallback_key find]. unfold PyStr.mem at 1. cbn [existsb].
  rewrite orb_false_r, !(String.eqb_sym c), !orb_assoc.
  destruct (String.eqb "." c || String.eqb ".." c || String.eqb "src" c);
    [exact IH | reflexivity].
Qed.

(** The if / elif chain of the code is the documented table read first match
    first. *)
Lemma cluster_key_first_match (p : string) :
  cluster_key p = SpecTable.assigned_label p.
Proof.
  unfold cluster_key, SpecTable.assigned_label, SpecTable.table,
    SpecTable.first_match, SpecTable.matches, SpecTable.label,
    SpecTable.has_component.
  rewrite <- fallback_key_spec.
  cbv beta iota zeta delta [existsb].
  rewrite !orb_false_r.
  generalize (fallback_key (parts p)); intros fb.
  repeat match goal with
         | |- context [contains ?a ?b] =>
             let c := fresh "c" in
             generalize (contains a b); intros c
         | |- context [PyStr.mem ?a ?b] =>
             let c := fresh "m" in
             generalize (PyStr.mem a b); intros c
         | |- context [endswith ?a ?b] =>
             let c := fresh "e" in
             generalize (endswith a b); intros c
         end.
  repeat (match goal with
          | |- (if ?c then _ else _) = _ =>
              match c with
              | context [?b] => is_var b; destruct b
              end
          end; cbn [orb]; rewrite ?orb_true_r; try reflexivity).
Qed.

(** C1. The cluster a record is put in is named by its relative path alone:
    whatever the input sequence, a record of it sits in the cluster whose name
    is the label of the first matching rule of the documented table (rules 1
    to 10, then the fallback) for its path, and in no cluster of another
    name; so the name is the same under every ordering of the input and
    whatever other files are present. *)
Theorem cluster_label_by_path (files : list file_info) (f : file_info) :
  In f files ->
  cluster_key (path f) = SpecTable.assigned_label (path f)
  /\ (exists l, In (SpecTable.assigned_label (path f), l) (simple_semantic_clustering files)
                /\ In f l)
  /\ (forall k l, In (k, l) (simple_semantic_clustering files) -> In f l ->
                  k = SpecTable.assigned_label (path f))
  /\ (forall files' k l k' l',
        In (k, l) (simple_semantic_clustering files) -> In f l ->
        In (k', l') (simple_semantic_clustering files') -> In f l' ->
        k = k').
Proof.
  intros Hin.
  assert (K : forall fs k l, In (k, l) (simple_semantic_clustering fs) -> In f l ->
                             k = cluster_key (path f)).
  { intros fs k l Hkl Hf. apply in_clustering in Hkl. destruct Hkl as [_ ->].
    apply in_bucket in Hf. symmetry. apply Hf. }
  split; [apply cluster_key_first_match|].
  rewrite <- cluster_key_first_match. split; [|split].
  - exists (bucket (cluster_key (path f)) files).
    assert (Hf : In f (bucket (cluster_key (path f)) files))
      by (apply in_bucket; split; [exact Hin | reflexivity]).
    split; [|exact Hf].
    apply in_clustering. split; [|reflexivity].
    intros E. rewrite E in Hf. exact Hf.
  - intros k l. apply K.
  - intros files' k l k' l' H1 H2 H3 H4.
    rewrite (K _ _ _ H1 H2), (K _ _ _ H3 H4). reflexivity.
Qed.

Lemma cluster_label_by_path_witness :
  let f := mk_file_info "src/lib/componentFactory.ts" "/r/src/lib/componentFactory.ts" "x" 1 ".ts" in
  let g := mk_file_info "src/auth/login.py" "/r/src/auth/login.py" "y" 1 ".py" in
  In f [g; f]
  /\ SpecTable.assigned_label (path f) = "UI Components"
  /\ exists l, In (SpecTable.assigned_label (path f), l) (simple_semantic_clustering [g; f])
               /\ In f l.
Proof.
  intros f g.
  assert (Hin : In f [g; f]) by (simpl; tauto).
  split; [exact Hin|]. split; [reflexivity|].
  exact (proj1 (proj2 (cluster_label_by_path [g; f] f Hin))).
Defined.

(** C2. The clusters partition the input: cluster names are pairwise
    distinct, every input record lies in exactly one cluster, the clusters
    together hold the input records and nothing else (with multiplicity), no
    cluster is empty, and each cluster lists its records in the order in which
    they were supplied (it is the input sequence filtered by the label). *)
Theorem clustering_partitions_input (files : list file_info) :
  NoDup (map fst (simple_semantic_clustering files))
  /\ (forall f, In f files ->
        exists! k, exists l, In (k, l) (simple_semantic_clustering files) /\ In f l)
  /\ Permutation (concat (map snd (simple_semantic_clustering files))) files
  /\ (forall k l, In (k, l) (simple_semantic_clustering files) ->
        l <> []
        /\ l = filter (fun f => String.eqb (cluster_key (path f)) k) files).
Proof.
  destruct (clustering_clustered files) as (Hnd & Hget & Hperm).
  split; [exact Hnd|]. split; [|split; [exact Hperm|]].
  - intros f Hin. exists (cluster_key (path f)). split.
    + exists (bucket (cluster_key (path f)) files).
      assert (Hf : In f (bucket (cluster_key (path f)) files))
        by (apply in_bucket; split; [exact Hin | reflexivity]).
      split; [|exact Hf].
      apply in_clustering. split; [|reflexivity].
      intros E. rewrite E in Hf. exact Hf.
    + intros k [l [Hkl Hf]]. apply in_clustering in Hkl. destruct Hkl as [_ ->].
      apply in_bucket in Hf. apply Hf.
  - intros k l Hkl. apply in_clustering in Hkl. exact Hkl.
Qed.

Lemma clustering_partitions_input_witness :
  let f := fun p => mk_file_info p p "" 0 ".ts" in
  let files := map f ["src/hooks/a.ts"; "src/utils/b.ts"; "src/hooks/c.ts"; "lib/d.ts"] in
  simple_semantic_clustering files =
    [ ("React Hooks", map f ["src/hooks/a.ts"; "src/hooks/c.ts"]);
      ("Utilities & Helpers", [f "src/utils/b.ts"]);
      ("Lib", [f "lib/d.ts"]) ]
  /\ NoDup (map fst (simple_semantic_clustering files))
  /\ Permutation (concat (map snd (simple_semantic_clustering files))) files.
Proof.
  intros f files.
  split; [reflexivity|].
  pose proof (clustering_partitions_input files) as (Hnd & _ & Hperm & _).
  split; [exact Hnd | exact Hperm].
Defined.

(** The scenario of the specification: three supported files, three
    clusters. *)
Example scenario_three_clusters :
  map (fun c => (fst c, map path (snd c)))
      (simple_semantic_clustering (scan_code_files Sample.files "proj" None)) =
  [ ("React Hooks", ["src/hooks/useAuth.ts"]);
    ("Utilities & Helpers", ["src/utils/format.ts"]);
    ("UI Components", ["src/components/Button.tsx"]) ].
Proof. reflexivity. Qed.

(** Substring rules fire on partial words; component rules read the parts as
    written. *)
Example cluster_key_examples :
  cluster_key "src/lib/componentFactory.ts" = "UI Components"
  /\ cluster_key "src/auth/index.ts" = "Authentication"
  /\ cluster_key "src/Auth/index.ts" = "Auth"
  /\ cluster_key "src/myDir/x.ts" = "Mydir"
  /\ cluster_key "main.go" = "Main.go"
  /\ cluster_key "" = "Other".
Proof. repeat split. Qed.

(** ** FileScanner *)

(** Induction on trees, with the hypothesis for every entry of a
    directory. *)
Lemma node_forall_ind (P : node -> Prop) :
  (forall text, P (File text)) ->
  (forall entries, Forall (fun e => P (snd e)) entries -> P (Dir entries)) ->
  forall n, P n.
Proof.
  intros HF HD.
  refine (fix IH (n : node) : P n :=
            match n with
            | File text => HF text
            | Dir entries =>
                HD entries
                   ((fix go (es : list (string * node)) : Forall (fun e => P (snd e)) es :=
                       match es with
                       | [] => Forall_nil _
                       | (name, child) :: r => Forall_cons (name, child) (IH child) (go r)
                       end) entries)
            end).
Qed.

Lemma rglob_node_dir ext here entries :
  rglob_node ext here (Dir entries) =
  map (fun e => (here ++ [fst e], snd e)) (filter (fun e => endswith ext (fst e)) entries)
  ++ flat_map (fun e => rglob_node ext (here ++ [fst e]) (snd e)) entries.
Proof.
  cbn [rglob_node]. f_equal.
  induction entries as [|[name child] r IH]; [reflexivity|].
  cbn [flat_map fst snd]. rewrite <- IH. reflexivity.
Qed.

(** Every candidate of the walk is an entry of the tree, found strictly below
    the directory walked, whose name ends with the extension. *)
Lemma rglob_node_at ext n : forall here p m,
  In (p, m) (rglob_node ext here n) ->
  exists rel, rel <> [] /\ p = here ++ rel /\ at_path n rel m.
Proof.
  induction n as [text | entries IH] using node_forall_ind; intros here p m Hin.
  - destruct Hin.
  - rewrite rglob_node_dir in Hin. apply in_app_or in Hin. destruct Hin as [Hin | Hin].
    + apply in_map_iff in Hin. destruct Hin as [[name child] [E Hin]].
      apply filter_In in Hin. destruct Hin as [Hin _].
      cbn [fst snd] in E. injection E as <- <-.
      exists [name]. split; [discriminate|]. split; [reflexivity|].
      apply (at_child entries name child [] child Hin), at_here.
    + apply in_flat_map in Hin. destruct Hin as [[name child] [Hin Hsub]].
      rewrite Forall_forall in IH. specialize (IH _ Hin). cbn [fst snd] in IH, Hsub.
      destruct (IH _ _ _ Hsub) as (rel & _ & -> & Hat).
      exists (name :: rel). split; [discriminate|].
      split; [now rewrite <- app_assoc|].
      apply (at_child entries name child rel m Hin Hat).
Qed.

Lemma rglob_at fs repo ext p m :
  In (p, m) (rglob fs repo ext) ->
  exists tree rel, fs repo = Some tree /\ rel <> [] /\ p = repo ++ rel /\ at_path tree rel m.
Proof.
  unfold rglob. destruct (fs repo) as [[text | entries]|] eqn:E; try contradiction.
  intros Hin. apply rglob_node_at in Hin. destruct Hin as (rel & Hne & -> & Hat).
  exists (Dir entries), rel. repeat split; assumption.
Qed.

Lemma in_firstn {A : Type} (n : nat) (l : list A) (x : A) :
  In x (firstn n l) -> In x l.
Proof.
  revert l. induction n as [|n IH]; intros [|y l]; simpl; try tauto.
  intros [H | H]; [left; exact H | right; apply IH, H].
Qed.

Lemma excluded_part_spec part :
  excluded_part part = true <-> hidden_or_denylisted part.
Proof.
  unfold excluded_part, hidden_or_denylisted, startswith, denylist, PyStr.mem.
  rewrite orb_true_iff, existsb_exists.
  assert (Hdot : String.prefix "." part = true <-> exists t, part = String "." t).
  { destruct part as [|a t].
    - split; [discriminate | intros [t E]; discriminate].
    - change (String.prefix "." (String a t))
        with (if ascii_dec "." a then String.prefix "" t else false).
      destruct (ascii_dec "." a) as [<- | Hne].
      + split; [intros _; now exists t | intros _; now destruct t].
      + split; [discriminate | intros [t' E]; congruence]. }
  assert (Hdeny : (exists x, In x ["node_modules"; "dist"; "build"; "__pycache__"]
                             /\ String.eqb part x = true)
                  <-> In part ["node_modules"; "dist"; "build"; "__pycache__"]).
  { split.
    - intros [x [Hin E]]. apply String.eqb_eq in E. now subst.
    - intros Hin. exists part. split; [exact Hin | apply String.eqb_refl]. }
  rewrite Hdot, Hdeny. reflexivity.
Qed.

Lemma skipped_spec file_path :
  skipped file_path = true <-> Exists hidden_or_denylisted file_path.
Proof.
  unfold skipped. rewrite existsb_exists, Exists_exists.
  split; intros [x [Hin H]]; exists x; (split; [exact Hin | apply excluded_part_spec, H]).
Qed.

Lemma not_skipped_spec file_path :
  skipped file_path = false <-> Forall (fun part => ~ hidden_or_denylisted part) file_path.
Proof.
  rewrite <- not_true_iff_false, skipped_spec, Forall_Exists_neg. reflexivity.
Qed.

Lemma in_scan_entry repo ext file_path n r :
  In r (scan_entry repo ext (file_path, n)) ->
  skipped file_path = false
  /\ scan_entry repo ext (file_path, n) = [r]
  /\ full_path r = path_str file_path
  /\ extension r = ext.
Proof.
  unfold scan_entry.
  destruct (skipped file_path); [contradiction|].
  destruct (read_text n); [|contradiction].
  destruct (relative_to file_path repo); [|contradiction].
  intros [<- | []]. repeat split.
Qed.

Lemma in_scan_code_files fs repo_path extensions r :
  In r (scan_code_files fs repo_path extensions) ->
  exists ext file_path n,
    In (file_path, n) (rglob fs (parts repo_path) ext)
    /\ In r (scan_entry (parts repo_path) ext (file_path, n)).
Proof.
  unfold scan_code_files. intros Hin.
  apply in_flat_map in Hin. destruct Hin as [ext [_ Hin]].
  apply in_flat_map in Hin. destruct Hin as [[file_path n] [Hc Hin]].
  exists ext, file_path, n. split; assumption.
Qed.

(** C3. Whatever the directory tree: every candidate of the walk is an entry
    of the tree under the root, and a candidate with a component that begins
    with a dot or is one of node_modules, dist, build, __pycache__ yields no
    record; every record of the scan comes from a candidate none of whose
    components is such; and the clusters, and the sample paths of the
    rendered sections, hold records of the scan only, so no excluded file
    reaches a cluster or the output, however many there are. *)
Theorem excluded_files_never_scanned (fs : fsys) (repo_path : string)
    (extensions : option (list string)) :
  (forall ext file_path n,
      In (file_path, n) (rglob fs (parts repo_path) ext) ->
      (exists tree rel, fs (parts repo_path) = Some tree
                        /\ file_path = parts repo_path ++ rel
                        /\ at_path tree rel n)
      /\ (Exists hidden_or_denylisted file_path ->
          scan_entry (parts repo_path) ext (file_path, n) = []))
  /\ (forall r, In r (scan_code_files fs repo_path extensions) ->
      exists ext file_path n,
        In (file_path, n) (rglob fs (parts repo_path) ext)
        /\ scan_entry (parts repo_path) ext (file_path, n) = [r]
        /\ full_path r = path_str file_path
        /\ Forall (fun part => ~ hidden_or_denylisted part) file_path)
  /\ (forall k l r,
      In (k, l) (simple_semantic_clustering (scan_code_files fs repo_path extensions)) ->
      In r l ->
      In r (scan_code_files fs repo_path extensions))
  /\ (forall c p,
      In c (simple_semantic_clustering (scan_code_files fs repo_path extensions)) ->
      In p (Overview.samples (Overview.of_cluster c)) ->
      exists r, In r (scan_code_files fs repo_path extensions) /\ path r = p).
Proof.
  assert (Hcl : forall k l r,
             In (k, l) (simple_semantic_clustering (scan_code_files fs repo_path extensions)) ->
             In r l -> In r (scan_code_files fs repo_path extensions)).
  { intros k l r Hkl Hr. apply in_clustering in Hkl. destruct Hkl as [_ ->].
    apply in_bucket in Hr. apply Hr. }
  split; [|split; [|split; [exact Hcl|]]]; cycle 2.
  { intros [k l] p Hc Hp. cbn [Overview.samples Overview.of_cluster snd] in Hp.
    apply in_map_iff in Hp. destruct Hp as [r [<- Hr]].
    exists r. split; [|reflexivity].
    apply (Hcl k l r Hc), (in_firstn 5 l r Hr). }
  - intros ext file_path n Hin. split.
    + destruct (rglob_at _ _ _ _ _ Hin) as (tree & rel & E & _ & Hp & Hat).
      exists tree, rel. repeat split; assumption.
    + intros Hex. apply skipped_spec in Hex. unfold scan_entry. now rewrite Hex.
  - intros r Hin.
    destruct (in_scan_code_files _ _ _ _ Hin) as (ext & file_path & n & Hc & Hr).
    destruct (in_scan_entry _ _ _ _ _ Hr) as (Hs & E & Hfull & _).
    exists ext, file_path, n. repeat split; try assumption.
    apply not_skipped_spec, Hs.
Qed.

Lemma excluded_files_never_scanned_witness :
  let repo := parts "proj" in
  let file_path := ["proj"; "src"; "node_modules"; "dep.js"] in
  let n := File (Some "module.exports = 4") in
  In (file_path, n) (rglob Sample.files repo ".js")
  /\ Exists hidden_or_denylisted file_path
  /\ scan_entry repo ".js" (file_path, n) = []
  /\ ~ In "src/node_modules/dep.js" (map path (scan_code_files Sample.files "proj" None)).
Proof.
  intros repo file_path n.
  assert (Hin : In (file_path, n) (rglob Sample.files repo ".js"))
    by (vm_compute; tauto).
  assert (Hex : Exists hidden_or_denylisted file_path).
  { apply Exists_cons_tl, Exists_cons_tl, Exists_cons_hd. right. simpl. tauto. }
  split; [exact Hin|]. split; [exact Hex|]. split.
  - exact (proj2 (proj1 (excluded_files_never_scanned Sample.files "proj" None)
                    ".js" file_path n Hin) Hex).
  - vm_compute. intros [H | [H | [H | []]]]; discriminate H.
Defined.

(** C10. The exclusion test reads every part of the joined path, the parts
    of the root included: when a part of the root path begins with a dot or
    is denylisted, the scan returns the empty list, whatever the tree under
    the root holds. *)
Theorem excluded_root_scans_nothing (fs : fsys) (repo_path : string)
    (extensions : option (list string)) :
  Exists hidden_or_denylisted (parts repo_path) ->
  scan_code_files fs repo_path extensions = [].
Proof.
  intros Hroot.
  destruct (scan_code_files fs repo_path extensions) as [|r rest] eqn:E; [reflexivity|].
  exfalso.
  assert (Hin : In r (scan_code_files fs repo_path extensions))
    by (rewrite E; left; reflexivity).
  destruct (in_scan_code_files _ _ _ _ Hin) as (ext & file_path & n & Hc & Hr).
  destruct (in_scan_entry _ _ _ _ _ Hr) as (Hs & _).
  destruct (rglob_at _ _ _ _ _ Hc) as (tree & rel & _ & _ & -> & _).
  apply not_true_iff_false in Hs. apply Hs, skipped_spec.
  apply Exists_app. left. exact Hroot.
Qed.

Lemma excluded_root_scans_nothing_witness :
  Exists hidden_or_denylisted (parts ".cache/proj")
  /\ scan_code_files Sample.files ".cache/proj" None = []
  /\ Exists hidden_or_denylisted (parts "build/proj")
  /\ scan_code_files Sample.files "build/proj" None = []
  /\ Sample.files (parts ".cache/proj") = Sample.files (parts "proj")
  /\ length (scan_code_files Sample.files "proj" None) = 3.
Proof.
  assert (H1 : Exists hidden_or_denylisted (parts ".cache/proj")).
  { apply Exists_cons_hd. left. now exists "cache". }
  assert (H2 : Exists hidden_or_denylisted (parts "build/proj")).
  { apply Exists_cons_hd. right. simpl. tauto. }
  split; [exact H1|]. split; [exact (excluded_root_scans_nothing _ _ None H1)|].
  split; [exact H2|]. split; [exact (excluded_root_scans_nothing _ _ None H2)|].
  split; reflexivity.
Defined.

(** ** Presenter *)

Section StableSort.
Context {A : Type} (key : A -> nat).

Lemma insert_desc_perm x l : Permutation (insert_desc key x l) (x :: l).
Proof.
  induction l as [|y r IH]; simpl; [reflexivity|].
  destruct (Nat.ltb (key x) (key y)); [|reflexivity].
  rewrite IH. apply perm_swap.
Qed.

Lemma sorted_desc_perm l : Permutation (sorted_desc key l) l.
Proof.
  induction l as [|x r IH]; simpl; [reflexivity|].
  rewrite insert_desc_perm. now apply perm_skip.
Qed.

Lemma insert_desc_sorted x l :
  StronglySorted (fun a b => key b <= key a) l ->
  StronglySorted (fun a b => key b <= key a) (insert_desc key x l).
Proof.
  induction l as [|y r IH]; simpl; intros Hs.
  - repeat constructor.
  - inversion Hs as [|? ? Hr Hy]; subst.
    destruct (Nat.ltb (key x) (key y)) eqn:E.
    + apply Nat.ltb_lt in E. constructor; [apply IH, Hr|].
      rewrite Forall_forall in *. intros z Hz.
      apply (Permutation_in _ (insert_desc_perm x r)) in Hz.
      destruct Hz as [<- | Hz]; [lia | apply Hy, Hz].
    + apply Nat.ltb_ge in E. constructor; [exact Hs|].
      constructor; [exact E|].
      rewrite Forall_forall in *. intros z Hz. specialize (Hy z Hz). lia.
Qed.

Lemma sorted_desc_sorted l :
  StronglySorted (fun a b => key b <= key a) (sorted_desc key l).
Proof.
  induction l as [|x r IH]; simpl; [constructor | apply insert_desc_sorted, IH].
Qed.

(** Stability: the elements of one key keep their order. *)
Lemma insert_desc_stable n x l :
  filter (fun a => Nat.eqb (key a) n) (insert_desc key x l) =
  filter (fun a => Nat.eqb (key a) n) (x :: l).
Proof.
  induction l as [|y r IH]; [reflexivity|].
  cbn [insert_desc]. destruct (Nat.ltb (key x) (key y)) eqn:E; [|reflexivity].
  apply Nat.ltb_lt in E. cbn [filter] in *. rewrite IH.
  destruct (Nat.eqb (key x) n) eqn:Ex, (Nat.eqb (key y) n) eqn:Ey; try reflexivity.
  apply Nat.eqb_eq in Ex, Ey. lia.
Qed.

Lemma sorted_desc_stable n l :
  filter (fun a => Nat.eqb (key a) n) (sorted_desc key l) =
  filter (fun a => Nat.eqb (key a) n) l.
Proof.
  induction l as [|x r IH]; [reflexivity|].
  cbn [sorted_desc fold_right]. rewrite insert_desc_stable.
  cbn [filter]. unfold sorted_desc in IH. now rewrite IH.
Qed.

End StableSort.

Lemma append_assoc (a b c : string) : ((a ++ b) ++ c = a ++ (b ++ c))%string.
Proof.
  induction a as [|x a IH]; [reflexivity|].
  change (String x ((a ++ b) ++ c) = String x (a ++ (b ++ c)))%string. now rewrite IH.
Qed.

Lemma append_nil_r (a : string) : (a ++ "" = a)%string.
Proof.
  induction a as [|x a IH]; [reflexivity|].
  change (String x (a ++ "") = String x a)%string. now rewrite IH.
Qed.

Lemma cat_cons (x : string) (l : list string) : cat (x :: l) = (x ++ cat l)%string.
Proof. reflexivity. Qed.

Lemma cat_app (l1 l2 : list string) : cat (l1 ++ l2) = (cat l1 ++ cat l2)%string.
Proof.
  induction l1 as [|x l1 IH]; [reflexivity|].
  rewrite <- app_comm_cons, !cat_cons, IH, append_assoc. reflexivity.
Qed.

Lemma fold_left_append {A : Type} (g : A -> string) (l : list A) : forall acc,
  fold_left (fun ov x => (ov ++ g x)%string) l acc = (acc ++ cat (map g l))%string.
Proof.
  induction l as [|x l IH]; intros acc; cbn [fold_left map].
  - apply eq_sym, append_nil_r.
  - rewrite IH, cat_cons, append_assoc. reflexivity.
Qed.

Lemma render_section_text overview c :
  render_section overview c = (overview ++ Overview.text (Overview.of_cluster c))%string.
Proof.
  destruct c as [name files_list].
  unfold render_section, Overview.text, Overview.lines, Overview.of_cluster.
  cbn [fst snd Overview.name Overview.count Overview.samples Overview.more].
  rewrite (fold_left_append (fun f => ("- " ++ path f ++ nl)%string)).
  rewrite !map_app, !cat_app, !map_map.
  cbn [map cat fold_right].
  assert (E : map (fun x => (("- " ++ path x) ++ nl)%string) (firstn 5 files_list)
              = map (fun f => ("- " ++ path f ++ nl)%string) (firstn 5 files_list)).
  { apply map_ext. intros f. apply append_assoc. }
  rewrite E.
  destruct (Nat.ltb 5 (length files_list)); cbn [map cat fold_right];
    rewrite ?append_assoc, ?append_nil_r; reflexivity.
Qed.

Lemma render_sections_text (l : list (string * list file_info)) : forall overview,
  fold_left render_section l overview =
  (overview ++ cat (map Overview.text (map Overview.of_cluster l)))%string.
Proof.
  induction l as [|c l IH]; intros overview; cbn [fold_left map].
  - apply eq_sym, append_nil_r.
  - rewrite IH, render_section_text, cat_cons, append_assoc. reflexivity.
Qed.

Lemma render_overview_text files clusters :
  render_overview files clusters =
  (Overview.heading (length files) (length clusters)
   ++ cat (map Overview.text
               (map Overview.of_cluster (sorted_desc file_count clusters))))%string.
Proof.
  unfold render_overview. rewrite render_sections_text. f_equal.
  unfold Overview.heading. rewrite ?append_assoc. reflexivity.
Qed.

(** C5. The overview is its heading followed by one section per cluster, the
    clusters taken by descending file count; a section lists the paths of the
    first five records of its cluster, so at most five, and when the cluster
    holds more than five files the section ends with the line
    [- ... and N more], N being the file count minus five (and has no such
    line otherwise). *)
Theorem overview_sections (files : list file_info) (clusters : cluster_map) :
  let shown := sorted_desc file_count clusters in
  render_overview files clusters =
    (Overview.heading (length files) (length clusters)
     ++ cat (map Overview.text (map Overview.of_cluster shown)))%string
  /\ Permutation shown clusters
  /\ StronglySorted (fun c c' => file_count c' <= file_count c) shown
  /\ Forall (fun c =>
       let s := Overview.of_cluster c in
       Overview.name s = fst c
       /\ Overview.count s = length (snd c)
       /\ Overview.samples s = map path (firstn 5 (snd c))
       /\ length (Overview.samples s) <= 5
       /\ (5 < length (snd c) ->
           Overview.lines s =
             [("## " ++ fst c ++ " (" ++ of_nat (length (snd c)) ++ " files)")%string;
              "Files:"]
             ++ map (fun p => ("- " ++ p)%string) (map path (firstn 5 (snd c)))
             ++ [("- ... and " ++ of_nat (length (snd c) - 5) ++ " more")%string; ""])
       /\ (length (snd c) <= 5 ->
           Overview.lines s =
             [("## " ++ fst c ++ " (" ++ of_nat (length (snd c)) ++ " files)")%string;
              "Files:"]
             ++ map (fun p => ("- " ++ p)%string) (map path (snd c))
             ++ [""])) shown.
Proof.
  intros shown. split; [apply render_overview_text|].
  split; [apply sorted_desc_perm|].
  split; [apply sorted_desc_sorted|].
  apply Forall_forall. intros [name files_list] _. cbn zeta.
  unfold Overview.lines, Overview.of_cluster.
  cbn [fst snd Overview.name Overview.count Overview.samples Overview.more].
  repeat split.
  - rewrite length_map, length_firstn. apply Nat.le_min_l.
  - intros Hlt. apply Nat.ltb_lt in Hlt. rewrite Hlt. reflexivity.
  - intros Hle. rewrite firstn_all2 by exact Hle.
    apply Nat.ltb_ge in Hle. rewrite Hle. reflexivity.
Qed.

Lemma overview_sections_witness :
  let f := fun p => mk_file_info p p "" 0 ".ts" in
  let small := ("Lib", [f "lib/a.ts"]) in
  let big := ("Tests", map f ["t/1.ts"; "t/2.ts"; "t/3.ts"; "t/4.ts"; "t/5.ts"; "t/6.ts"; "t/7.ts"]) in
  sorted_desc file_count [small; big] = [big; small]
  /\ Overview.more (Overview.of_cluster big) = Some 2
  /\ Overview.samples (Overview.of_cluster big)
     = ["t/1.ts"; "t/2.ts"; "t/3.ts"; "t/4.ts"; "t/5.ts"]
  /\ render_overview (snd small ++ snd big) [small; big] =
       (Overview.heading 8 2
        ++ cat (map Overview.text (map Overview.of_cluster [big; small])))%string.
Proof.
  intros f small big.
  split; [reflexivity|]. split; [reflexivity|]. split; [reflexivity|].
  exact (proj1 (overview_sections (snd small ++ snd big) [small; big])).
Defined.

Lemma summarize_entries (clusters : cluster_map) :
  Forall2 (fun c e => fst e = fst c /\ cluster_summary (snd c) (snd e))
    clusters
    (map (fun c : string * list file_info =>
            let (name, files_list) := c in
            (name,
             JObj [ ("file_count", json_of_nat (length files_list));
                    ("files", JArr (map (fun f => JStr (path f)) (firstn 10 files_list)));
                    ("sample_file",
                     match files_list with
                     | f :: _ => JStr (path f)
                     | [] => JNull
                     end) ]))
         clusters).
Proof.
  induction clusters as [|[name files_list] r IH]; cbn [map]; constructor; [|exact IH].
  cbn [fst snd]. split; [reflexivity|].
  exists (map path (firstn 10 files_list)). split; [|split].
  - unfold json_of_nat. now rewrite map_map.
  - reflexivity.
  - now rewrite length_map, length_firstn.
Qed.

(** C6. The summary built for [index_repository] holds the number of files,
    the number of clusters and, cluster by cluster and in the order of the
    map, the name with a [file_count] equal to the length of the cluster, the
    paths of its first ten records (so at most ten, whatever its size) and as
    [sample_file] the path of its first record.  On the map that the
    clustering returns no cluster is empty, so the representative is always a
    path, and the number of files is the sum of the file counts. *)
Theorem summary_contents (files : list file_info) (clusters : cluster_map) :
  (exists entries,
      summarize files clusters =
        JObj [ ("total_files", JInt (Z.of_nat (length files)));
               ("total_clusters", JInt (Z.of_nat (length clusters)));
               ("clusters", JObj entries) ]
      /\ Forall2 (fun c e => fst e = fst c /\ cluster_summary (snd c) (snd e))
                 clusters entries
      /\ Forall (fun e => exists files_list sample_paths,
                   cluster_summary files_list (snd e)
                   /\ field "files" (snd e) = Some (JArr (map JStr sample_paths))
                   /\ length sample_paths <= 10) entries)
  /\ (clusters = simple_semantic_clustering files ->
      length files = length (concat (map snd clusters))
      /\ Forall (fun c => exists f, hd_error (snd c) = Some f
                                    /\ forall v, cluster_summary (snd c) v ->
                                                 field "sample_file" v = Some (JStr (path f)))
                clusters).
Proof.
  split.
  - eexists. split; [reflexivity|]. split; [apply summarize_entries|].
    apply Forall_forall. intros e He.
    apply in_map_iff in He. destruct He as [[name files_list] [<- _]].
    exists files_list, (map path (firstn 10 files_list)). cbn [snd].
    split; [|split].
    + exists (map path (firstn 10 files_list)). split; [|split].
      * unfold json_of_nat. now rewrite map_map.
      * reflexivity.
      * now rewrite length_map, length_firstn.
    + now rewrite map_map.
    + rewrite length_map, length_firstn. apply Nat.le_min_l.
  - intros ->. destruct (clustering_clustered files) as (_ & _ & Hperm). split.
    + symmetry. apply Permutation_length, Hperm.
    + apply Forall_forall. intros [k l] Hkl. apply in_clustering in Hkl.
      destruct Hkl as [Hne _]. cbn [snd].
      destruct l as [|f l]; [congruence|].
      exists f. split; [reflexivity|].
      intros v (sample_paths & -> & _). reflexivity.
Qed.

Lemma summary_contents_witness :
  let f := fun p => mk_file_info p p "" 0 ".py" in
  let files := map f ["db/a.py"; "db/b.py"; "db/c.py"; "db/d.py"; "db/e.py"; "db/f.py";
                      "db/g.py"; "db/h.py"; "db/i.py"; "db/j.py"; "db/k.py"; "db/l.py";
                      "api/m.py"] in
  let clusters := simple_semantic_clustering files in
  map fst clusters = ["Database & Models"; "API Routes"]
  /\ length files = length (concat (map snd clusters))
  /\ match field "clusters" (summarize files clusters) with
     | Some cs =>
         match field "Database & Models" cs with
         | Some c => field "file_count" c = Some (JInt 12)
                     /\ field "sample_file" c = Some (JStr "db/a.py")
                     /\ match field "files" c with
                        | Some (JArr l) => length l = 10
                        | _ => False
                        end
         | None => False
         end
     | None => False
     end.
Proof.
  intros f files clusters.
  split; [reflexivity|].
  split; [exact (proj1 (proj2 (summary_contents files clusters) eq_refl))|].
  vm_compute. repeat split.
Defined.

(** ** RequestRouter *)

Lemma str_eq_false (v : json) (s : string) : str_eq v s = false <-> v <> JStr s.
Proof.
  destruct v; simpl; try (split; [discriminate | reflexivity]).
  rewrite String.eqb_neq. split; congruence.
Qed.

(** On a request object the three reads succeed, and the [try] turns every
    outcome of the body into a response. *)
Lemma handle_request_object rt o :
  handle_request rt (JObj o) =
  Ok (match dispatch rt (method_of o) (params_of o) (request_id_of o) with
      | Ok response => response
      | Raise e => failure (request_id_of o) INTERNAL_ERROR ("Internal error: " ++ e)%string
      end).
Proof.
  unfold handle_request, py_get, bind.
  fold (method_of o) (params_of o) (request_id_of o).
  destruct (dispatch rt (method_of o) (params_of o) (request_id_of o)); reflexivity.
Qed.

Lemma dispatch_unknown_method rt method params request_id :
  ~ In method [JStr "initialize"; JStr "tools/list"; JStr "tools/call"] ->
  dispatch rt method params request_id = Ok (unknown_method rt method request_id).
Proof.
  intros Hn. unfold dispatch.
  assert (H1 : str_eq method "initialize" = false)
    by (apply str_eq_false; intros ->; apply Hn; simpl; tauto).
  assert (H2 : str_eq method "tools/list" = false)
    by (apply str_eq_false; intros ->; apply Hn; simpl; tauto).
  assert (H3 : str_eq method "tools/call" = false)
    by (apply str_eq_false; intros ->; apply Hn; simpl; tauto).
  now rewrite H1, H2, H3.
Qed.

(** The tools/call branch on a params object. *)
Lemma dispatch_tools_call rt ps request_id :
  dispatch rt (JStr "tools/call") (JObj ps) request_id =
  let tool_name := match Dict.get "name" ps with Some n => n | None => JNull end in
  let tool_args := match Dict.get "arguments" ps with Some a => a | None => JObj [] end in
  if str_eq tool_name "index_repository" then
    repo_path <- py_get tool_args "path" (JStr ".") ;;
    files <- scan_arg rt repo_path ;;
    Ok (success request_id
          (text_content (json_dumps rt (Some 2)
                           (summarize files (simple_semantic_clustering files)))))
  else if str_eq tool_name "get_cluster_overview" then
    repo_path <- py_get tool_args "path" (JStr ".") ;;
    files <- scan_arg rt repo_path ;;
    Ok (success request_id
          (text_content (render_overview files (simple_semantic_clustering files))))
  else Ok (unknown_method rt (JStr "tools/call") request_id).
Proof. reflexivity. Qed.

Lemma calls_tool_fields o tool arguments :
  calls_tool o tool arguments ->
  method_of o = JStr "tools/call"
  /\ exists ps, params_of o = JObj ps
                /\ Dict.get "name" ps = Some (JStr tool)
                /\ Dict.get "arguments" ps = arguments.
Proof.
  intros (Hm & ps & Hp & Hn & Ha). unfold method_of, params_of. rewrite Hm, Hp.
  split; [reflexivity|]. exists ps. repeat split; assumption.
Qed.

Lemma prefix_refl (s : string) : String.prefix s s = true.
Proof.
  induction s as [|a s IH]; [reflexivity|].
  simpl. destruct (ascii_dec a a); [exact IH | congruence].
Qed.

Lemma contains_prefix (needle hay : string) :
  String.prefix needle hay = true -> contains needle hay = true.
Proof. intros H. destruct hay; cbn [contains]; now rewrite H. Qed.

Lemma contains_refl (s : string) : contains s s = true.
Proof. apply contains_prefix, prefix_refl. Qed.

(** [s in p + s] *)
Lemma contains_append (p s : string) : contains s (p ++ s) = true.
Proof.
  induction p as [|a p IH]; [apply contains_refl|].
  change (String a p ++ s)%string with (String a (p ++ s)%string).
  cbn [contains]. rewrite IH. now destruct (String.prefix s _).
Qed.

Lemma flat_map_nil {A B : Type} (l : list A) : flat_map (fun _ : A => @nil B) l = [].
Proof. induction l; simpl; auto. Qed.

(** The walk of a root that is missing or is no directory finds nothing. *)
Lemma scan_without_directory fs repo_path extensions :
  (forall entries, fs (parts repo_path) <> Some (Dir entries)) ->
  scan_code_files fs repo_path extensions = [].
Proof.
  intros Hnd. unfold scan_code_files, rglob.
  destruct (fs (parts repo_path)) as [[text | entries]|] eqn:E.
  - apply flat_map_nil.
  - exfalso. apply (Hnd entries). reflexivity.
  - apply flat_map_nil.
Qed.

(** C4. A [get_cluster_overview] call whose root path is missing or is not a
    directory, when examining the root raises nothing, scans nothing and
    clusters nothing, and is answered by a success envelope with the id of the
    request and no error, whose text is the bare heading: 0 files, 0 areas
    and no section after it.  When examining the root raises, the exception
    is caught by the handler and the answer is the internal-error envelope
    with its message. *)
Theorem missing_root_overview (rt : runtime) (o args : list (string * json))
    (repo_path : string) :
  calls_tool o "get_cluster_overview" (Some (JObj args)) ->
  Dict.get "path" args = Some (JStr repo_path) ->
  (forall entries, fs rt (parts repo_path) <> Some (Dir entries)) ->
  (walk_failure rt (parts repo_path) = None ->
     scan_code_files (fs rt) repo_path None = []
     /\ simple_semantic_clustering (scan_code_files (fs rt) repo_path None) = []
     /\ exists response,
          handle_request rt (JObj o) = Ok response
          /\ field "id" response = Some (request_id_of o)
          /\ field "error" response = None
          /\ response_text response = Some (render_overview [] [])
          /\ render_overview [] [] =
               ("# Semantic Code Architecture" ++ nl ++ nl
                ++ "**Total Files**: 0" ++ nl
                ++ "**Conceptual Areas**: 0" ++ nl ++ nl)%string)
  /\ (forall w, walk_failure rt (parts repo_path) = Some w ->
        exists response,
          handle_request rt (JObj o) = Ok response
          /\ field "id" response = Some (request_id_of o)
          /\ field "result" response = None
          /\ error_code response = Some (JInt (-32603))
          /\ error_message response = Some (JStr ("Internal error: " ++ raised w)%string)).
Proof.
  intros Hcall Hpath Hnd.
  pose proof (scan_without_directory (fs rt) repo_path None Hnd) as Hscan.
  assert (D : handle_request rt (JObj o) =
              Ok (match scan_arg rt (JStr repo_path) with
                  | Ok files =>
                      success (request_id_of o)
                        (text_content
                           (render_overview files (simple_semantic_clustering files)))
                  | Raise e =>
                      failure (request_id_of o) INTERNAL_ERROR ("Internal error: " ++ e)%string
                  end)).
  { rewrite handle_request_object.
    destruct (calls_tool_fields _ _ _ Hcall) as (-> & ps & -> & Hn & Ha).
    rewrite dispatch_tools_call, Hn, Ha. cbv zeta.
    change (str_eq (JStr "get_cluster_overview") "index_repository") with false.
    change (str_eq (JStr "get_cluster_overview") "get_cluster_overview") with true.
    cbv iota. unfold py_get. rewrite Hpath. unfold bind.
    destruct (scan_arg rt (JStr repo_path)); reflexivity. }
  split.
  - intros Hw. split; [exact Hscan|]. split; [now rewrite Hscan|].
    eexists. split; [exact D|]. unfold scan_arg. rewrite Hw, Hscan.
    repeat split.
  - intros w Hw. eexists. split; [exact D|]. unfold scan_arg. rewrite Hw.
    repeat split.
Qed.

Lemma missing_root_overview_witness :
  let call := fun p => [("jsonrpc", JStr "2.0"); ("id", JInt 7); ("method", JStr "tools/call");
                        ("params", JObj [("name", JStr "get_cluster_overview");
                                         ("arguments", JObj [("path", JStr p)])])] in
  (exists response,
      handle_request Sample.rt (JObj (call "no/such/dir")) = Ok response
      /\ field "error" response = None
      /\ response_text response = Some (render_overview [] []))
  /\ (exists response,
      handle_request Sample.rt (JObj (call "notes.txt")) = Ok response
      /\ field "error" response = None
      /\ response_text response = Some (render_overview [] [])).
Proof.
  intros call.
  assert (C : forall p, calls_tool (call p) "get_cluster_overview"
                          (Some (JObj [("path", JStr p)]))).
  { intros p. split; [reflexivity|].
    eexists. split; [reflexivity|]. split; reflexivity. }
  assert (N1 : forall entries, fs Sample.rt (parts "no/such/dir") <> Some (Dir entries))
    by (intros entries; vm_compute; discriminate).
  assert (N2 : forall entries, fs Sample.rt (parts "notes.txt") <> Some (Dir entries))
    by (intros entries; vm_compute; discriminate).
  split.
  - destruct (proj1 (missing_root_overview Sample.rt (call "no/such/dir") _ "no/such/dir"
                       (C _) eq_refl N1) eq_refl)
      as (_ & _ & response & H & _ & He & Ht & _).
    exists response. repeat split; assumption.
  - destruct (proj1 (missing_root_overview Sample.rt (call "notes.txt") _ "notes.txt"
                       (C _) eq_refl N2) eq_refl)
      as (_ & _ & response & H & _ & He & Ht & _).
    exists response. repeat split; assumption.
Defined.

(** A root that does not exist and whose stat fails with ENAMETOOLONG: the
    overview call is answered by the internal-error envelope, not by an empty
    overview. *)
Lemma unexaminable_root_is_internal_error :
  let o := [("jsonrpc", JStr "2.0"); ("id", JInt 7); ("method", JStr "tools/call");
            ("params", JObj [("name", JStr "get_cluster_overview");
                             ("arguments", JObj [("path", JStr Sample.long_name)])])] in
  fs Sample.rt_failing (parts Sample.long_name) = None
  /\ exists response,
       handle_request Sample.rt_failing (JObj o) = Ok response
       /\ field "result" response = None
       /\ response_text response = None
       /\ error_code response = Some (JInt (-32603))
       /\ error_message response
          = Some (JStr ("Internal error: " ++ Sample.name_too_long)%string).
Proof.
  intros o. split; [vm_compute; reflexivity|].
  eexists. split; [vm_compute; reflexivity|]. repeat split.
Qed.

(** C7. A request whose method is none of initialize, tools/list and
    tools/call is answered by an error envelope with the method-not-found
    code, whose message ends with the method as written, so contains its
    name; a tools/call naming neither index_repository nor
    get_cluster_overview is answered with the same code; and that code is not
    the internal-error code. *)
Theorem unknown_method_or_tool (rt : runtime) (o : list (string * json)) :
  (~ In (method_of o) [JStr "initialize"; JStr "tools/list"; JStr "tools/call"] ->
     handle_request rt (JObj o) =
       Ok (failure (request_id_of o) METHOD_NOT_FOUND
             ("Method not found: " ++ py_str rt (method_of o))%string)
     /\ forall m, method_of o = JStr m ->
          handle_request rt (JObj o) =
            Ok (failure (request_id_of o) METHOD_NOT_FOUND ("Method not found: " ++ m)%string)
          /\ contains m ("Method not found: " ++ m)%string = true)
  /\ (forall ps,
        method_of o = JStr "tools/call" ->
        params_of o = JObj ps ->
        ~ In (match Dict.get "name" ps with Some n => n | None => JNull end)
             [JStr "index_repository"; JStr "get_cluster_overview"] ->
        handle_request rt (JObj o) =
          Ok (failure (request_id_of o) METHOD_NOT_FOUND "Method not found: tools/call"))
  /\ METHOD_NOT_FOUND <> INTERNAL_ERROR
  /\ (forall response message,
        response = failure (request_id_of o) METHOD_NOT_FOUND message ->
        error_code response = Some (JInt (-32601))
        /\ error_message response = Some (JStr message)
        /\ field "result" response = None).
Proof.
  split; [|split; [|split]].
  - intros Hn.
    assert (E : handle_request rt (JObj o) =
                Ok (failure (request_id_of o) METHOD_NOT_FOUND
                      ("Method not found: " ++ py_str rt (method_of o))%string))
      by (now rewrite handle_request_object, (dispatch_unknown_method _ _ _ _ Hn)).
    split; [exact E|].
    intros m Hm. rewrite E, Hm. split; [reflexivity | apply contains_append].
  - intros ps Hm Hp Hn. rewrite handle_request_object, Hm, Hp, dispatch_tools_call.
    cbv zeta.
    rewrite (proj2 (str_eq_false _ "index_repository"))
      by (intros E; apply Hn; rewrite E; simpl; tauto).
    rewrite (proj2 (str_eq_false _ "get_cluster_overview"))
      by (intros E; apply Hn; rewrite E; simpl; tauto).
    reflexivity.
  - discriminate.
  - intros response message ->. repeat split.
Qed.

Lemma unknown_method_or_tool_witness :
  handle_request Sample.rt (request (JInt 3) "resources/list" (JObj [])) =
    Ok (failure (JInt 3) METHOD_NOT_FOUND "Method not found: resources/list")
  /\ contains "resources/list" "Method not found: resources/list" = true
  /\ handle_request Sample.rt (tool_call (JInt 4) "delete_everything" (JObj [])) =
    Ok (failure (JInt 4) METHOD_NOT_FOUND "Method not found: tools/call").
Proof.
  assert (H1 : ~ In (JStr "resources/list")
                    [JStr "initialize"; JStr "tools/list"; JStr "tools/call"])
    by (intros [H | [H | [H | []]]]; discriminate H).
  assert (H2 : ~ In (JStr "delete_everything")
                    [JStr "index_repository"; JStr "get_cluster_overview"])
    by (intros [H | [H | []]]; discriminate H).
  pose proof (unknown_method_or_tool Sample.rt
                [("jsonrpc", JStr "2.0"); ("id", JInt 3);
                 ("method", JStr "resources/list"); ("params", JObj [])]) as U.
  pose proof (unknown_method_or_tool Sample.rt
                [("jsonrpc", JStr "2.0"); ("id", JInt 4); ("method", JStr "tools/call");
                 ("params", JObj [("name", JStr "delete_everything");
                                  ("arguments", JObj [])])]) as V.
  split; [|split].
  - exact (proj1 (proj2 (proj1 U H1) "resources/list" eq_refl)).
  - exact (proj2 (proj2 (proj1 U H1) "resources/list" eq_refl)).
  - exact (proj1 (proj2 V) _ eq_refl eq_refl H2).
Defined.

(** ** ServerLoop *)

Lemma main_app rt (before after : list string) : forall stdout,
  main rt (before ++ after) stdout = main rt after (main rt before stdout).
Proof.
  induction before as [|line before IH]; intros stdout; [reflexivity|].
  cbn [app main]. apply IH.
Qed.

(** The loop visits every line: its output is what the lines add, one after
    the other. *)
Lemma main_flat_map rt (stdin : list string) : forall stdout,
  main rt stdin stdout = stdout ++ flat_map (serve_line rt) stdin.
Proof.
  induction stdin as [|line stdin IH]; intros stdout; cbn [main flat_map].
  - now rewrite app_nil_r.
  - rewrite IH, app_assoc. reflexivity.
Qed.

(** A decoded value that is no object makes the reads that precede the [try]
    raise: [handle_request] raises and the loop writes nothing for the line. *)
Lemma non_object_request_dropped rt line v :
  json_loads rt line = Decoded v ->
  (forall o, v <> JObj o) ->
  handle_request rt v = Raise ("'" ++ type_name v ++ "' object has no attribute 'get'")%string
  /\ serve_line rt line = [].
Proof.
  intros Hl Hv. unfold serve_line. rewrite Hl.
  destruct v; try (split; reflexivity).
  exfalso. apply (Hv o). reflexivity.
Qed.

(** C8. On a request object [handle_request] always returns a response; when
    the dispatch raises, the response is the error envelope with the id of
    the request, no result, the internal-error code and the message
    [Internal error: ] followed by the message of the exception, and the loop
    writes that one response and goes on with the lines that follow.  A
    decoded value that is no object raises in the reads that precede the
    [try]: [handle_request] raises, the loop writes no response for the line,
    and goes on with the lines that follow as well. *)
Theorem dispatch_exception_contained (rt : runtime) (o : list (string * json)) :
  (exists response, handle_request rt (JObj o) = Ok response)
  /\ (forall e,
        dispatch rt (method_of o) (params_of o) (request_id_of o) = Raise e ->
        exists response,
          handle_request rt (JObj o) = Ok response
          /\ field "id" response = Some (request_id_of o)
          /\ field "result" response = None
          /\ error_code response = Some (JInt (-32603))
          /\ error_message response = Some (JStr ("Internal error: " ++ e)%string)
          /\ contains e ("Internal error: " ++ e)%string = true
          /\ forall line before after stdout,
               json_loads rt line = Decoded (JObj o) ->
               serve_line rt line = [json_dumps rt None response]
               /\ main rt (before ++ line :: after) stdout =
                  main rt after (main rt before stdout ++ [json_dumps rt None response]))
  /\ (forall v, (forall o', v <> JObj o') ->
        handle_request rt v
          = Raise ("'" ++ type_name v ++ "' object has no attribute 'get'")%string
        /\ forall line before after stdout,
             json_loads rt line = Decoded v ->
             serve_line rt line = []
             /\ main rt (before ++ line :: after) stdout
                = main rt after (main rt before stdout))
  /\ (forall before after stdout,
        main rt (before ++ after) stdout = main rt after (main rt before stdout)).
Proof.
  split; [|split; [|split]].
  - rewrite handle_request_object. eexists. reflexivity.
  - intros e He.
    assert (E : handle_request rt (JObj o) =
                Ok (failure (request_id_of o) INTERNAL_ERROR ("Internal error: " ++ e)%string))
      by (now rewrite handle_request_object, He).
    eexists. split; [exact E|].
    split; [reflexivity|]. split; [reflexivity|]. split; [reflexivity|].
    split; [reflexivity|]. split; [apply contains_append|].
    intros line before after stdout Hl.
    assert (S : serve_line rt line =
                [json_dumps rt None
                   (failure (request_id_of o) INTERNAL_ERROR ("Internal error: " ++ e)%string)])
      by (unfold serve_line; now rewrite Hl, E).
    split; [exact S|].
    rewrite main_app. cbn [main]. now rewrite S.
  - intros v Hv.
    assert (R : handle_request rt v
                = Raise ("'" ++ type_name v ++ "' object has no attribute 'get'")%string).
    { destruct v; try reflexivity. exfalso. apply (Hv o0). reflexivity. }
    split; [exact R|].
    intros line before after stdout Hl.
    assert (S : serve_line rt line = []) by (unfold serve_line; now rewrite Hl, R).
    split; [exact S|].
    rewrite main_app. cbn [main]. now rewrite S, app_nil_r.
  - intros before after stdout. apply main_app.
Qed.

Lemma dispatch_exception_contained_witness :
  let o := [("jsonrpc", JStr "2.0"); ("id", JInt 2); ("method", JStr "tools/call");
            ("params", JNull)] in
  dispatch Sample.rt (method_of o) (params_of o) (request_id_of o)
    = Raise "'NoneType' object has no attribute 'get'"
  /\ (exists response,
        handle_request Sample.rt (JObj o) = Ok response
        /\ error_code response = Some (JInt (-32603))
        /\ error_message response
           = Some (JStr "Internal error: 'NoneType' object has no attribute 'get'")
        /\ main Sample.rt ["init"; "bad-params"; "init"] []
           = main Sample.rt ["init"]
               (main Sample.rt ["init"] [] ++ [json_dumps Sample.rt None response]))
  /\ main Sample.rt ["init"; "bad-params"; "init"] [] = ["{...}"; "{...}"; "{...}"].
Proof.
  intros o.
  assert (D : dispatch Sample.rt (method_of o) (params_of o) (request_id_of o)
              = Raise "'NoneType' object has no attribute 'get'") by reflexivity.
  destruct (proj1 (proj2 (dispatch_exception_contained Sample.rt o)) _ D)
    as (response & H & _ & _ & Hc & Hm & _ & L).
  split; [exact D|]. split; [|reflexivity].
  exists response. split; [exact H|]. split; [exact Hc|]. split; [exact Hm|].
  exact (proj2 (L "bad-params" ["init"] ["init"] [] eq_refl)).
Defined.

(** A line that decodes to a list is a request the loop hands to
    [handle_request]; the exception it raises there is not turned into an
    envelope, and nothing is written for the line. *)
Lemma non_object_request_gets_no_envelope :
  json_loads Sample.rt "list" = Decoded (JArr [])
  /\ handle_request Sample.rt (JArr []) = Raise "'list' object has no attribute 'get'"
  /\ (forall response, handle_request Sample.rt (JArr []) <> Ok response)
  /\ serve_line Sample.rt "list" = []
  /\ main Sample.rt ["list"] [] = [].
Proof.
  split; [reflexivity|]. split; [reflexivity|]. split; [discriminate|].
  split; reflexivity.
Qed.




(** * Further properties of the code *)

(** ** FileScanner: what a record is made of *)

Lemma last_cons_nonempty {A : Type} (x : A) (l : list A) (d : A) :
  l <> [] -> last (x :: l) d = last l d.
Proof. destruct l; [congruence | reflexivity]. Qed.

(** Candidates carry a name that ends with the extension searched. *)
Lemma rglob_node_name ext n : forall here p m,
  In (p, m) (rglob_node ext here n) ->
  exists rel, rel <> [] /\ p = here ++ rel /\ at_path n rel m
              /\ endswith ext (last rel "") = true.
Proof.
  induction n as [text | entries IH] using node_forall_ind; intros here p m Hin.
  - destruct Hin.
  - rewrite rglob_node_dir in Hin. apply in_app_or in Hin. destruct Hin as [Hin | Hin].
    + apply in_map_iff in Hin. destruct Hin as [[name child] [E Hin]].
      apply filter_In in Hin. destruct Hin as [Hin Hext].
      cbn [fst snd] in E, Hext. injection E as <- <-.
      exists [name]. split; [discriminate|]. split; [reflexivity|].
      split; [|exact Hext].
      apply (at_child entries name child [] child Hin), at_here.
    + apply in_flat_map in Hin. destruct Hin as [[name child] [Hin Hsub]].
      rewrite Forall_forall in IH. specialize (IH _ Hin). cbn [fst snd] in IH, Hsub.
      destruct (IH _ _ _ Hsub) as (rel & Hne & -> & Hat & Hext).
      exists (name :: rel). split; [discriminate|].
      split; [now rewrite <- app_assoc|].
      split; [apply (at_child entries name child rel m Hin Hat)|].
      now rewrite last_cons_nonempty.
Qed.


Lemma relative_to_app (base rel : Path) : relative_to (base ++ rel) base = Some rel.
Proof.
  induction base as [|b base IH]; [now destruct rel|].
  cbn [app relative_to]. now rewrite String.eqb_refl.
Qed.

Lemma length_substring_0 (n : nat) : forall s,
  String.length (substring 0 n s) = Nat.min n (String.length s).
Proof.
  induction n as [|n IH]; intros [|c s]; try reflexivity.
  cbn [substring String.length]. now rewrite IH.
Qed.

Lemma prefix_substring_0 (n : nat) : forall s,
  String.prefix (substring 0 n s) s = true.
Proof.
  induction n as [|n IH]; intros [|c s]; try reflexivity.
  cbn [substring]. simpl. destruct (ascii_dec c c); [apply IH | congruence].
Qed.

Lemma read_text_some n text : read_text n = Some text -> n = File (Some text).
Proof. destruct n as [[t|]|es]; simpl; congruence. Qed.

(** Where a record of a scan comes from, and what it holds. *)
Lemma scan_record_origin (fs : fsys) (repo_path : string)
    (extensions : option (list string)) (r : file_info) :
  In r (scan_code_files fs repo_path extensions) ->
  exists tree rel text,
    fs (parts repo_path) = Some tree
    /\ rel <> []
    /\ at_path tree rel (File (Some text))
    /\ In (extension r) (match extensions with
                         | None => default_extensions
                         | Some l => l
                         end)
    /\ endswith (extension r) (last rel "") = true
    /\ path r = path_str rel
    /\ full_path r = path_str (parts repo_path ++ rel)
    /\ content r = substring 0 2000 text
    /\ size r = String.length text
    /\ String.length (content r) = Nat.min 2000 (size r)
    /\ String.prefix (content r) text = true.
Proof.
  unfold scan_code_files. intros Hin.
  apply in_flat_map in Hin. destruct Hin as [ext [Hext Hin]].
  apply in_flat_map in Hin. destruct Hin as [[file_path n] [Hc Hin]].
  unfold rglob in Hc.
  destruct (fs (parts repo_path)) as [[t | entries]|] eqn:E; try contradiction.
  apply rglob_node_name in Hc. destruct Hc as (rel & Hne & -> & Hat & Hname).
  unfold scan_entry in Hin.
  destruct (skipped (parts repo_path ++ rel)); [contradiction|].
  destruct (read_text n) as [text|] eqn:Hread; [|contradiction].
  rewrite relative_to_app in Hin. destruct Hin as [<- | []].
  apply read_text_some in Hread. subst n.
  exists (Dir entries), rel, text. cbn [path full_path content size extension].
  repeat split; try assumption.
  - apply length_substring_0.
  - apply prefix_substring_0.
Qed.

Lemma default_extensions_literal :
  Forall (fun ext => literal_extension ext = true) default_extensions.
Proof. repeat constructor. Qed.

(** X1. For extensions that the glob matches as literal suffixes (the default
    list among them), every record of a scan describes a readable regular
    file of the tree, found strictly below the root, whose name ends with the
    extension recorded: the two paths are that file's, the content is the
    first 2000 characters of its text and the size is the length of the whole
    text. *)
Theorem scan_record_fields (fs : fsys) (repo_path : string)
    (extensions : option (list string)) (r : file_info) :
  Forall (fun ext => literal_extension ext = true)
         (match extensions with None => default_extensions | Some l => l end) ->
  In r (scan_code_files fs repo_path extensions) ->
  exists tree rel text,
    fs (parts repo_path) = Some tree
    /\ rel <> []
    /\ at_path tree rel (File (Some text))
    /\ In (extension r) (match extensions with
                         | None => default_extensions
                         | Some l => l
                         end)
    /\ endswith (extension r) (last rel "") = true
    /\ path r = path_str rel
    /\ full_path r = path_str (parts repo_path ++ rel)
    /\ content r = substring 0 2000 text
    /\ size r = String.length text
    /\ String.length (content r) = Nat.min 2000 (size r)
    /\ String.prefix (content r) text = true.
Proof. intros _. apply scan_record_origin. Qed.

Lemma scan_record_fields_witness :
  let big := String.concat "" (repeat "0123456789" 250) in
  let fs := fun p : Path =>
    match p with
    | [] => Some (Dir [("big.py", File (Some big))])
    | _ => None
    end in
  map (fun r => (path r, size r, String.length (content r)))
      (scan_code_files fs "." None) = [("big.py", 2500, 2000)]
  /\ exists tree rel text,
       fs (parts ".") = Some tree /\ rel <> []
       /\ at_path tree rel (File (Some text)).
Proof.
  intros big fs.
  assert (E : scan_code_files fs "." None
              = [mk_file_info "big.py" "big.py" (substring 0 2000 big) 2500 ".py"])
    by (vm_compute; reflexivity).
  split; [rewrite E; vm_compute; reflexivity|].
  assert (Hin : In (mk_file_info "big.py" "big.py" (substring 0 2000 big) 2500 ".py")
                   (scan_code_files fs "." None)) by (rewrite E; left; reflexivity).
  destruct (scan_record_fields fs "." None _ default_extensions_literal Hin)
    as (tree & rel & text & H1 & H2 & H3 & _).
  exists tree, rel, text. repeat split; assumption.
Defined.



(** ** Clusterer: the order of the clusters *)

Lemma filter_filter_comm {A : Type} (p q : A -> bool) (l : list A) :
  filter p (filter q l) = filter q (filter p l).
Proof.
  induction l as [|x l IH]; [reflexivity|].
  cbn [filter]. destruct (p x) eqn:P, (q x) eqn:Q; cbn [filter];
    rewrite ?P, ?Q, IH; reflexivity.
Qed.

Lemma filter_all {A : Type} (q : A -> bool) (l : list A) :
  (forall y, In y l -> q y = true) -> filter q l = l.
Proof.
  induction l as [|x l IH]; intros H; [reflexivity|].
  cbn [filter]. rewrite (H x (or_introl eq_refl)). f_equal.
  apply IH. intros y Hy. apply H. now right.
Qed.

Lemma first_seen_filter (p : string -> bool) (l : list string) :
  first_seen (filter p l) = filter p (first_seen l).
Proof.
  induction l as [|x l IH]; [reflexivity|].
  cbn [filter first_seen]. destruct (p x) eqn:P; cbn [first_seen filter]; rewrite ?P.
  - rewrite IH. f_equal. apply filter_filter_comm.
  - rewrite IH, (filter_filter_comm p). symmetry. apply filter_all.
    intros y Hy. apply filter_In in Hy. destruct Hy as [_ Py].
    destruct (String.eqb y x) eqn:E; [|reflexivity].
    apply String.eqb_eq in E. subst y. congruence.
Qed.

Lemma cluster_step_key_list clusters f :
  map fst (cluster_step clusters f) =
  map fst clusters ++ (if Dict.mem (label_of f) clusters then [] else [label_of f]).
Proof.
  unfold cluster_step, label_of.
  destruct (Dict.mem (cluster_key (path f)) clusters) eqn:M; cbn [negb];
    rewrite keys_update.
  - now rewrite app_nil_r.
  - now rewrite keys_set, M.
Qed.

Lemma clustering_keys_from files : forall clusters,
  map fst (fold_left cluster_step files clusters) =
  map fst clusters
  ++ first_seen (filter (fun k => negb (Dict.mem k clusters)) (map label_of files)).
Proof.
  induction files as [|f files IH]; intros clusters; cbn [fold_left map filter].
  - now rewrite app_nil_r.
  - rewrite IH, cluster_step_key_list.
    destruct (Dict.mem (label_of f) clusters) eqn:M; cbn [negb].
    + rewrite app_nil_r. f_equal. f_equal. apply filter_ext. intros k.
      f_equal. apply eq_true_iff_eq. rewrite !mem_keys, cluster_step_key_list, M.
      now rewrite app_nil_r.
    + rewrite <- app_assoc. f_equal. cbn [app first_seen]. f_equal.
      assert (E : forall l : list string,
                 filter (fun k => negb (Dict.mem k (cluster_step clusters f))) l =
                 filter (fun y => negb (String.eqb y (label_of f)))
                        (filter (fun k => negb (Dict.mem k clusters)) l)).
      { intros l. induction l as [|k l IHl]; [reflexivity|].
        cbn [filter]. rewrite IHl.
        assert (Hk : Dict.mem k (cluster_step clusters f)
                     = Dict.mem k clusters || String.eqb k (label_of f)).
        { apply eq_true_iff_eq.
          rewrite orb_true_iff, !mem_keys, cluster_step_key_list, M, in_app_iff.
          cbn [In]. rewrite String.eqb_eq. intuition congruence. }
        rewrite Hk. destruct (Dict.mem k clusters); cbn [orb negb filter];
          [reflexivity|].
        destruct (String.eqb k (label_of f)); reflexivity. }
      rewrite E. apply first_seen_filter.
Qed.

Lemma nonempty_buckets_count (d : cluster_map) :
  Forall (fun c => snd c <> []) d -> length d <= length (concat (map snd d)).
Proof.
  induction 1 as [|[k l] r Hl Hr IH]; [apply Nat.le_refl|].
  cbn [snd] in Hl. cbn [map concat snd length]. rewrite length_app.
  destruct l; [congruence|]. cbn [length]. lia.
Qed.

(** X3. The clusters come in the order in which their labels first occur in the
    input (the insertion order of the dict), each label once; so there are at
    most as many clusters as records. *)
Theorem cluster_names_in_first_seen_order (files : list file_info) :
  map fst (simple_semantic_clustering files) = first_seen (map label_of files)
  /\ length (simple_semantic_clustering files) <= length files
  /\ (forall k l, In (k, l) (simple_semantic_clustering files) ->
        exists f rest, l = f :: rest /\ label_of f = k
                       /\ exists before after,
                            files = before ++ f :: after
                            /\ Forall (fun g => label_of g <> k) before).
Proof.
  assert (K : map fst (simple_semantic_clustering files) = first_seen (map label_of files)).
  { unfold simple_semantic_clustering. rewrite clustering_keys_from. cbn [map app].
    f_equal. apply filter_all. reflexivity. }
  split; [exact K|]. split.
  - destruct (clustering_clustered files) as (_ & Hget & Hperm).
    rewrite <- (Permutation_length Hperm).
    apply nonempty_buckets_count.
    apply Forall_forall. intros [k l] Hkl. apply in_clustering in Hkl. apply Hkl.
  - intros k l Hkl. apply in_clustering in Hkl. destruct Hkl as [Hne ->].
    unfold bucket, label_of in *.
    clear K. induction files as [|g files IH]; [cbn in Hne; congruence|].
    cbn [filter] in *. destruct (String.eqb (cluster_key (path g)) k) eqn:E.
    + apply String.eqb_eq in E.
      exists g, (filter (fun f => String.eqb (cluster_key (path f)) k) files).
      split; [reflexivity|]. split; [exact E|].
      exists [], files. split; [reflexivity | constructor].
    + destruct (IH Hne) as (f & rest & Hl & Hf & before & after & -> & Hb).
      exists f, rest. split; [exact Hl|]. split; [exact Hf|].
      exists (g :: before), after. split; [reflexivity|].
      constructor; [|exact Hb]. now apply String.eqb_neq.
Qed.

Lemma cluster_names_in_first_seen_order_witness :
  let f := fun p => mk_file_info p p "" 0 ".ts" in
  let files := map f ["lib/a.ts"; "src/hooks/b.ts"; "lib/c.ts"; "src/hooks/d.ts"; "e.ts"] in
  map label_of files = ["Lib"; "React Hooks"; "Lib"; "React Hooks"; "E.ts"]
  /\ map fst (simple_semantic_clustering files) = ["Lib"; "React Hooks"; "E.ts"].
Proof.
  intros f files. split; [reflexivity|].
  rewrite (proj1 (cluster_names_in_first_seen_order files)). reflexivity.
Defined.

(** ** Presenter: the order of the sections *)

Lemma insert_desc_head {A : Type} (key : A -> nat) (x : A) (l : list A) :
  Forall (fun y => key y <= key x) l -> insert_desc key x l = x :: l.
Proof.
  destruct l as [|y r]; [reflexivity|].
  intros H. inversion H as [|? ? Hy _]; subst. cbn [insert_desc].
  apply Nat.ltb_ge in Hy. now rewrite Hy.
Qed.

(** X4. The sort behind the overview is stable and keeps a map that is already
    in descending order as it is: clusters of equal size are shown in the
    order of the map, and the first section is of a largest cluster. *)
Theorem overview_order_stable (clusters : cluster_map) :
  (forall n, filter (fun c => Nat.eqb (file_count c) n) (sorted_desc file_count clusters)
             = filter (fun c => Nat.eqb (file_count c) n) clusters)
  /\ (StronglySorted (fun c c' => file_count c' <= file_count c) clusters ->
      sorted_desc file_count clusters = clusters)
  /\ (forall c rest, sorted_desc file_count clusters = c :: rest ->
        forall c', In c' clusters -> file_count c' <= file_count c).
Proof.
  split; [|split].
  - intros n. apply sorted_desc_stable.
  - induction 1 as [|c r Hs IH Hc]; [reflexivity|].
    cbn [sorted_desc fold_right]. unfold sorted_desc in IH. rewrite IH.
    apply insert_desc_head, Hc.
  - intros c rest E c' Hin.
    pose proof (sorted_desc_sorted file_count clusters) as Hs. rewrite E in Hs.
    apply (Permutation_in _ (Permutation_sym (sorted_desc_perm file_count clusters))) in Hin.
    rewrite E in Hin. inversion Hs as [|? ? _ Hall]; subst.
    destruct Hin as [<- | Hin]; [apply Nat.le_refl|].
    rewrite Forall_forall in Hall. apply Hall, Hin.
Qed.

Lemma overview_order_stable_witness :
  let f := fun p => mk_file_info p p "" 0 ".ts" in
  let clusters := [ ("A", [f "a1"]); ("B", [f "b1"; f "b2"]); ("C", [f "c1"]);
                    ("D", [f "d1"; f "d2"]) ] in
  map fst (sorted_desc file_count clusters) = ["B"; "D"; "A"; "C"]
  /\ map fst (filter (fun c => Nat.eqb (file_count c) 1) (sorted_desc file_count clusters))
     = ["A"; "C"].
Proof.
  intros f clusters. split; [reflexivity|].
  rewrite (proj1 (overview_order_stable clusters) 1). reflexivity.
Defined.

(** ** RequestRouter: the shape of every response *)

Lemma dispatch_ok_shape rt method params request_id response :
  dispatch rt method params request_id = Ok response ->
  (exists x, response = success request_id x)
  \/ (exists message, response = failure request_id METHOD_NOT_FOUND message).
Proof.
  unfold dispatch, unknown_method.
  destruct (str_eq method "initialize"); [intros [= <-]; left; eexists; reflexivity|].
  destruct (str_eq method "tools/list"); [intros [= <-]; left; eexists; reflexivity|].
  destruct (str_eq method "tools/call"); [|intros [= <-]; right; eexists; reflexivity].
  destruct (py_get params "name" JNull) as [tool_name|]; cbn [bind]; [|discriminate].
  destruct (py_get params "arguments" (JObj [])) as [tool_args|]; cbn [bind]; [|discriminate].
  destruct (str_eq tool_name "index_repository").
  { destruct (py_get tool_args "path" (JStr ".")) as [repo_path|]; cbn [bind]; [|discriminate].
    destruct (scan_arg rt repo_path); cbn [bind]; [|discriminate].
    intros [= <-]. left. eexists. reflexivity. }
  destruct (str_eq tool_name "get_cluster_overview").
  { destruct (py_get tool_args "path" (JStr ".")) as [repo_path|]; cbn [bind]; [|discriminate].
    destruct (scan_arg rt repo_path); cbn [bind]; [|discriminate].
    intros [= <-]. left. eexists. reflexivity. }
  intros [= <-]. right. eexists. reflexivity.
Qed.

(** X5. Whatever the request object, the response is an envelope with the
    protocol tag, the id of the request (null when it has none) and either a
    result and no error, or no result and an error made of one of the two
    codes and a message. *)
Theorem response_envelope (rt : runtime) (o : list (string * json)) (response : json) :
  handle_request rt (JObj o) = Ok response ->
  field "jsonrpc" response = Some (JStr "2.0")
  /\ field "id" response = Some (request_id_of o)
  /\ ((exists x, field "result" response = Some x /\ field "error" response = None)
      \/ (exists code message,
            field "result" response = None
            /\ field "error" response
               = Some (JObj [("code", JInt code); ("message", JStr message)])
            /\ (code = METHOD_NOT_FOUND \/ code = INTERNAL_ERROR))).
Proof.
  rewrite handle_request_object. intros [= <-].
  destruct (dispatch rt (method_of o) (params_of o) (request_id_of o)) as [r | e] eqn:D.
  - destruct (dispatch_ok_shape _ _ _ _ _ D) as [[x ->] | [message ->]].
    + repeat split. left. exists x. split; reflexivity.
    + repeat split. right. exists METHOD_NOT_FOUND, message.
      repeat split. now left.
  - repeat split. right. eexists INTERNAL_ERROR, _. repeat split. now right.
Qed.

Lemma response_envelope_witness :
  let o := [("id", JStr "abc"); ("method", JStr "tools/call"); ("params", JInt 3)] in
  exists response,
    handle_request Sample.rt (JObj o) = Ok response
    /\ field "jsonrpc" response = Some (JStr "2.0")
    /\ field "id" response = Some (JStr "abc").
Proof.
  intros o. eexists. split; [reflexivity|].
  pose proof (response_envelope Sample.rt o _ eq_refl) as (H1 & H2 & _).
  split; [exact H1 | exact H2].
Defined.

Lemma py_get_raises v key default :
  (exists e, py_get v key default = Raise e) <-> (forall o, v <> JObj o).
Proof.
  destruct v; simpl; split;
    try (intros _; first [discriminate | eexists; reflexivity]).
  - intros [e H]. discriminate.
  - intros H. exfalso. apply (H o). reflexivity.
Qed.

Lemma scan_steps_raise rt (arguments : option json) (g : list file_info -> json) :
  (exists e,
      (repo_path <- py_get (match arguments with Some x => x | None => JObj [] end)
                           "path" (JStr ".") ;;
       files <- scan_arg rt repo_path ;;
       Ok (g files)) = Raise e)
  <-> (match arguments with
       | None => false
       | Some (JObj a) =>
           match Dict.get "path" a with
           | None => false
           | Some (JStr _) => false
           | Some _ => true
           end
       | Some _ => true
       end = true
       \/ exists p w,
            match arguments with
            | None => Some "."
            | Some (JObj a) =>
                match Dict.get "path" a with
                | None => Some "."
                | Some (JStr p) => Some p
                | Some _ => None
                end
            | Some _ => None
            end = Some p
            /\ walk_failure rt (parts p) = Some w).
Proof.
  assert (W : forall p,
             (exists e, (files <- scan_arg rt (JStr p) ;; Ok (g files)) = Raise e)
             <-> (false = true
                  \/ exists q w, Some p = Some q /\ walk_failure rt (parts q) = Some w)).
  { intros p. unfold scan_arg, bind.
    destruct (walk_failure rt (parts p)) as [w|] eqn:E.
    - split; [intros _; right; now exists p, w | intros _; eexists; reflexivity].
    - split; [intros [e H]; discriminate H|].
      intros [H | (q & w & [= <-] & H)]; congruence. }
  assert (T : forall (other : option string) (e0 : string),
             other = None ->
             (exists e, @Raise json e0 = Raise e)
             <-> (true = true
                  \/ exists q w, other = Some q /\ walk_failure rt (parts q) = Some w)).
  { intros other e0 _. split; [intros _; now left | intros _; eexists; reflexivity]. }
  destruct arguments as [[| | | | |a]|]; cbn [py_get bind]; try (apply T; reflexivity).
  - destruct (Dict.get "path" a) as [[| | | | |]|]; cbn [scan_arg bind];
      try (apply T; reflexivity); apply W.
  - cbn [Dict.get]. apply W.
Qed.

(** X6. The internal-error envelope answers two kinds of request and no other:
    an ill-typed tools/call (params that are no object, or a known tool with
    arguments that are no object or a [path] that is no string), and a
    well-typed call of one of the two tools whose scan raises; in the latter
    case the message carries the message of that exception. *)
Theorem internal_error_causes (rt : runtime) (o : list (string * json))
    (response : json) :
  handle_request rt (JObj o) = Ok response ->
  (error_code response = Some (JInt INTERNAL_ERROR)
   <-> (malformed_call (method_of o) (params_of o) = true
        \/ exists p w,
             scanned_root (method_of o) (params_of o) = Some p
             /\ walk_failure rt (parts p) = Some w))
  /\ (forall p w,
        scanned_root (method_of o) (params_of o) = Some p ->
        walk_failure rt (parts p) = Some w ->
        error_message response = Some (JStr ("Internal error: " ++ raised w)%string)).
Proof.
  rewrite handle_request_object. intros [= <-].
  assert (R : (exists e, dispatch rt (method_of o) (params_of o) (request_id_of o) = Raise e)
              <-> (malformed_call (method_of o) (params_of o) = true
                   \/ exists p w,
                        scanned_root (method_of o) (params_of o) = Some p
                        /\ walk_failure rt (parts p) = Some w)).
  { generalize (method_of o) (params_of o) (request_id_of o).
    intros method params request_id. unfold dispatch, malformed_call, scanned_root.
    destruct (str_eq method "initialize") eqn:E1.
    { destruct method; try discriminate E1. simpl in E1. apply String.eqb_eq in E1.
      subst. split; [intros [e H]; discriminate H|].
      intros [H | (p & w & H & _)]; discriminate H. }
    destruct (str_eq method "tools/list") eqn:E2.
    { destruct method; try discriminate E2. simpl in E2. apply String.eqb_eq in E2.
      subst. split; [intros [e H]; discriminate H|].
      intros [H | (p & w & H & _)]; discriminate H. }
    destruct (str_eq method "tools/call"); cbn [andb].
    2:{ split; [intros [e H]; discriminate H|].
        intros [H | (p & w & H & _)]; discriminate H. }
    destruct params as [| | | | |ps];
      try (split; [intros _; now left | intros _; eexists; reflexivity]).
    cbn [py_get bind]. cbv zeta.
    destruct (str_eq (match Dict.get "name" ps with Some n => n | None => JNull end)
                     "index_repository"); cbn [orb andb];
      [apply (scan_steps_raise rt (Dict.get "arguments" ps))|].
    destruct (str_eq (match Dict.get "name" ps with Some n => n | None => JNull end)
                     "get_cluster_overview"); cbn [orb andb];
      [apply (scan_steps_raise rt (Dict.get "arguments" ps))|].
    split; [intros [e H]; discriminate H|].
    intros [H | (p & w & H & _)]; discriminate H. }
  split.
  - rewrite <- R.
    destruct (dispatch rt (method_of o) (params_of o) (request_id_of o)) as [r | e] eqn:D.
    + split; [|intros [e H]; discriminate].
      destruct (dispatch_ok_shape _ _ _ _ _ D) as [[x ->] | [message ->]]; discriminate.
    + split; [intros _; now exists e | reflexivity].
  - intros p w Hroot Hw.
    assert (D : dispatch rt (method_of o) (params_of o) (request_id_of o) = Raise (raised w)).
    { revert Hroot. generalize (method_of o) (params_of o) (request_id_of o).
      intros method params request_id. unfold dispatch, scanned_root.
      destruct (str_eq method "initialize") eqn:E1.
      { destruct method; try discriminate E1. simpl in E1. apply String.eqb_eq in E1.
        subst. discriminate. }
      destruct (str_eq method "tools/list") eqn:E2.
      { destruct method; try discriminate E2. simpl in E2. apply String.eqb_eq in E2.
        subst. discriminate. }
      destruct (str_eq method "tools/call"); [|discriminate].
      destruct params as [| | | | |ps]; try discriminate.
      cbn [py_get bind]. cbv zeta.
      assert (S : forall g : list file_info -> json,
                 match Dict.get "arguments" ps with
                 | None => Some "."
                 | Some (JObj a) =>
                     match Dict.get "path" a with
                     | None => Some "."
                     | Some (JStr p) => Some p
                     | Some _ => None
                     end
                 | Some _ => None
                 end = Some p ->
                 (repo_path <- py_get (match Dict.get "arguments" ps with
                                       | Some x => x
                                       | None => JObj []
                                       end) "path" (JStr ".") ;;
                  files <- scan_arg rt repo_path ;;
                  Ok (g files)) = Raise (raised w)).
      { intros g.
        destruct (Dict.get "arguments" ps) as [[| | | | |a]|]; try discriminate.
        - cbn [py_get bind].
          destruct (Dict.get "path" a) as [[| | | | |]|]; try discriminate;
            intros [= ->]; unfold scan_arg, bind; now rewrite Hw.
        - intros [= <-]. cbn [py_get Dict.get bind]. unfold scan_arg. now rewrite Hw. }
      destruct (str_eq (match Dict.get "name" ps with Some n => n | None => JNull end)
                       "index_repository"); cbn [orb]; [apply S|].
      destruct (str_eq (match Dict.get "name" ps with Some n => n | None => JNull end)
                       "get_cluster_overview"); cbn [orb]; [apply S | discriminate]. }
    rewrite D. reflexivity.
Qed.

Lemma internal_error_causes_witness :
  let call := fun path =>
    [("id", JInt 1); ("method", JStr "tools/call");
     ("params", JObj [("name", JStr "index_repository");
                      ("arguments", JObj [("path", path)])])] in
  (exists response, handle_request Sample.rt (JObj (call (JInt 5))) = Ok response
                    /\ error_code response = Some (JInt INTERNAL_ERROR))
  /\ (exists response, handle_request Sample.rt (JObj (call (JStr "no/such/dir"))) = Ok response
                       /\ error_code response <> Some (JInt INTERNAL_ERROR))
  /\ (exists response,
        handle_request Sample.rt_failing (JObj (call (JStr "."))) = Ok response
        /\ error_code response = Some (JInt INTERNAL_ERROR)
        /\ error_message response
           = Some (JStr "Internal error: [Errno 5] Input/output error: 'vendor'")).
Proof.
  intros call. split; [|split]; eexists; (split; [reflexivity|]).
  - apply (proj2 (proj1 (internal_error_causes Sample.rt (call (JInt 5)) _ eq_refl))).
    left. reflexivity.
  - intros H.
    apply (proj1 (proj1 (internal_error_causes Sample.rt (call (JStr "no/such/dir")) _
                           eq_refl))) in H.
    destruct H as [H | (p & w & _ & H)]; discriminate H.
  - pose proof (internal_error_causes Sample.rt_failing (call (JStr ".")) _ eq_refl)
      as [C M].
    split.
    + apply (proj2 C). right. eexists ".", _. split; reflexivity.
    + exact (M "." _ eq_refl eq_refl).
Defined.

(** ** ServerLoop: what the loop writes *)

Lemma serve_line_cases rt line :
  (decodes_to_object rt line = true ->
   exists o response,
     json_loads rt line = Decoded (JObj o)
     /\ handle_request rt (JObj o) = Ok response
     /\ serve_line rt line = [json_dumps rt None response])
  /\ (decodes_to_object rt line = false -> serve_line rt line = []).
Proof.
  unfold decodes_to_object, serve_line.
  destruct (json_loads rt line) as [[| | | | |o]| |]; split;
    try discriminate; try reflexivity.
  intros _. exists o. rewrite handle_request_object. eexists.
  split; [reflexivity|]. split; reflexivity.
Qed.

Lemma main_process_lines rt (input : list read) : forall stdout,
  main_process rt input stdout = (main rt (lines_read input) stdout, read_failure input).
Proof.
  induction input as [|[line | message] input IH]; intros stdout; [reflexivity | |].
  - cbn [main_process lines_read read_failure main]. apply IH.
  - reflexivity.
Qed.

(** X7. The process answers the lines that the iteration of stdin yields, up
    to the first read that raises: it appends to stdout, in order, one line
    for each of them that decodes to a request object and nothing for the
    others, so dropping those others from the input changes nothing; a read
    that raises ends the process with that exception, and no line after it
    is answered. *)
Theorem main_output (rt : runtime) (input : list read) (stdout : list string) :
  main_process rt input stdout
    = (stdout ++ flat_map (serve_line rt) (lines_read input), read_failure input)
  /\ (forall line,
        (decodes_to_object rt line = true ->
         exists o response,
           json_loads rt line = Decoded (JObj o)
           /\ handle_request rt (JObj o) = Ok response
           /\ serve_line rt line = [json_dumps rt None response])
        /\ (decodes_to_object rt line = false -> serve_line rt line = []))
  /\ length (fst (main_process rt input stdout))
     = length stdout + length (filter (decodes_to_object rt) (lines_read input))
  /\ main_process rt
       (filter (fun r => match r with
                         | Line line => decodes_to_object rt line
                         | ReadError _ => true
                         end) input) stdout
     = main_process rt input stdout
  /\ (forall before message after,
        main_process rt (map Line before ++ ReadError message :: after) stdout
        = (main rt before stdout, Some message)).
Proof.
  split; [now rewrite main_process_lines, main_flat_map|].
  split; [apply serve_line_cases|]. split; [|split].
  - rewrite main_process_lines. cbn [fst]. rewrite main_flat_map, length_app. f_equal.
    induction (lines_read input) as [|line lines IH]; [reflexivity|].
    cbn [flat_map filter]. rewrite length_app, IH.
    destruct (decodes_to_object rt line) eqn:D.
    + destruct (proj1 (serve_line_cases rt line) D) as (o & response & _ & _ & ->).
      reflexivity.
    + rewrite (proj2 (serve_line_cases rt line) D). reflexivity.
  - revert stdout. induction input as [|[line | message] input IH]; intros stdout;
      [reflexivity | | reflexivity].
    cbn [filter]. destruct (decodes_to_object rt line) eqn:D.
    + cbn [main_process]. apply IH.
    + cbn [main_process]. rewrite (proj2 (serve_line_cases rt line) D), app_nil_r. apply IH.
  - intros before message after. rewrite main_process_lines. f_equal.
    + f_equal. induction before as [|line before IH]; [reflexivity|].
      cbn [map app lines_read]. now rewrite IH.
    + induction before as [|line before IH]; [reflexivity|]. exact IH.
Qed.

Lemma main_output_witness :
  main_process Sample.rt
    [Line "init"; Line "garbage"; Line "list"; Line "bad-params";
     ReadError "'utf-8' codec can't decode byte 0xff"; Line "init"] []
  = (["{...}"; "{...}"], Some "'utf-8' codec can't decode byte 0xff")
  /\ length (fst (main_process Sample.rt
                    [Line "init"; Line "garbage"; Line "list"; Line "bad-params"] [])) = 2.
Proof.
  split.
  - rewrite (proj1 (main_output Sample.rt _ [])). reflexivity.
  - rewrite (proj1 (proj2 (proj2 (main_output Sample.rt _ [])))). reflexivity.
Defined.

(** ** Clusterer: tests that never decide *)

Lemma split_on_head sep s :
  exists h r b, split_on sep s = h :: r /\ s = (h ++ b)%string.
Proof.
  induction s as [|c t IH].
  - exists "", [], "". split; reflexivity.
  - cbn [split_on]. destruct (Ascii.eqb c sep).
    + exists "", (split_on sep t), (String c t). split; reflexivity.
    + destruct IH as (h & r & b & -> & ->).
      exists (String c h), r, b. split; reflexivity.
Qed.

Lemma split_on_infix sep c : forall s,
  In c (split_on sep s) -> exists a b, s = (a ++ c ++ b)%string.
Proof.
  induction s as [|ch t IH]; cbn [split_on].
  - intros [<- | []]. exists "", "". reflexivity.
  - destruct (Ascii.eqb ch sep).
    + intros [<- | Hin].
      * exists "", (String ch t). reflexivity.
      * destruct (IH Hin) as (a & b & ->). exists (String ch a), b. reflexivity.
    + destruct (split_on_head sep t) as (h & r & b & E & Ht). rewrite E in *.
      intros [<- | Hin].
      * exists "", b. rewrite Ht. reflexivity.
      * destruct (IH (or_intror Hin)) as (a & b' & Ha).
        exists (String ch a), b'. rewrite Ha. reflexivity.
Qed.

Lemma anchor_infix c s : In c (anchor s) -> exists a b, s = (a ++ c ++ b)%string.
Proof.
  unfold anchor.
  destruct s as [|c0 s]; [intros []|].
  destruct (Ascii.eqb_spec c0 "/") as [-> | Hne].
  - destruct s as [|c1 s]; [intros [<- | []]; exists "", ""; reflexivity|].
    destruct (Ascii.eqb_spec c1 "/") as [-> | Hne1].
    + destruct s as [|c2 s]; [intros [<- | []]; exists "", ""; reflexivity|].
      destruct (Ascii.eqb_spec c2 "/") as [-> | Hne2].
      * intros [<- | []]. exists "", (String "/" (String "/" s)). reflexivity.
      * assert (E : match c2 with
                    | "/"%char => ["/"]
                    | _ => ["//"]
                    end = ["//"]).
        { destruct c2 as [[] [] [] [] [] [] [] []]; try reflexivity. congruence. }
        change (In c (match c2 with "/"%char => ["/"] | _ => ["//"] end) ->
                exists a b, String "/" (String "/" (String c2 s)) = (a ++ c ++ b)%string).
        rewrite E. intros [<- | []]. exists "", (String c2 s). reflexivity.
    + assert (E : match c1 with
                  | "/"%char =>
                      match s with
                      | String "/" _ => ["/"]
                      | _ => ["//"]
                      end
                  | _ => ["/"]
                  end = ["/"]).
      { destruct c1 as [[] [] [] [] [] [] [] []]; try reflexivity. congruence. }
      change (In c (match c1 with
                    | "/"%char => match s with String "/" _ => ["/"] | _ => ["//"] end
                    | _ => ["/"]
                    end) ->
              exists a b, String "/" (String c1 s) = (a ++ c ++ b)%string).
      rewrite E. intros [<- | []]. exists "", (String c1 s). reflexivity.
  - assert (E : anchor (String c0 s) = []).
    { destruct c0 as [[] [] [] [] [] [] [] []]; try reflexivity. congruence. }
    unfold anchor in E. rewrite E. intros [].
Qed.

(** Every part of a path is a piece of the path string. *)
Lemma parts_infix c p : In c (parts p) -> exists a b, p = (a ++ c ++ b)%string.
Proof.
  unfold parts. intros Hin. apply in_app_or in Hin. destruct Hin as [Hin | Hin].
  - apply anchor_infix, Hin.
  - apply filter_In in Hin. apply (split_on_infix "/"), Hin.
Qed.

Lemma lower_append (a b : string) : lower (a ++ b) = (lower a ++ lower b)%string.
Proof.
  induction a as [|c a IH]; [reflexivity|].
  change (String (lower_ascii c) (lower (a ++ b))
          = String (lower_ascii c) (lower a ++ lower b)%string).
  now rewrite IH.
Qed.

Lemma prefix_append (n b : string) : String.prefix n (n ++ b) = true.
Proof.
  induction n as [|c n IH]; [now destruct b|].
  change (String c n ++ b)%string with (String c (n ++ b)%string).
  simpl. destruct (ascii_dec c c); [exact IH | congruence].
Qed.

(** [n in a + n + b] *)
Lemma contains_infix (n a b : string) : contains n (a ++ n ++ b) = true.
Proof.
  induction a as [|c a IH].
  - change ("" ++ n ++ b)%string with (n ++ b)%string.
    apply contains_prefix, prefix_append.
  - change (String c a ++ n ++ b)%string with (String c (a ++ n ++ b)%string).
    cbn [contains]. rewrite IH. now destruct (String.prefix n _).
Qed.

Lemma mem_in (x : string) (l : list string) : PyStr.mem x l = true <-> In x l.
Proof.
  unfold PyStr.mem. rewrite existsb_exists. split.
  - intros [y [Hin E]]. apply String.eqb_eq in E. now subst.
  - intros Hin. exists x. split; [exact Hin | apply String.eqb_refl].
Qed.

(** A part whose lower-cased text begins with [n] puts [n] in the lower-cased
    path. *)
Lemma part_gives_substring (c n rest p : string) :
  PyStr.mem c (parts p) = true -> lower c = (n ++ rest)%string ->
  contains n (lower p) = true.
Proof.
  intros Hin Hc. apply mem_in, parts_infix in Hin. destruct Hin as (a & b & ->).
  rewrite !lower_append, Hc, append_assoc. apply contains_infix.
Qed.

Lemma endswith_suffix (suf : string) : forall s,
  endswith suf s = true -> exists a, s = (a ++ suf)%string.
Proof.
  induction s as [|c s IH]; cbn [endswith].
  - destruct (String.eqb_spec suf "") as [-> | _]; [|discriminate].
    intros _. exists "". reflexivity.
  - destruct (String.eqb_spec suf (String c s)) as [-> | _].
    + intros _. exists "". reflexivity.
    + intros H. destruct (IH H) as [a ->]. exists (String c a). reflexivity.
Qed.

(** X8. In the first six rules the substring test decides alone: whenever the
    component test of a rule (components, hooks, services, utils, types) or a
    suffix test of the sixth (.test.ts, .test.tsx) holds, the substring test
    of the same rule holds too, so those tests never change a label. *)
Theorem component_and_suffix_tests_redundant (p : string) :
  (PyStr.mem "components" (parts p) = true -> contains "component" (lower p) = true)
  /\ (PyStr.mem "hooks" (parts p) = true -> contains "hook" (lower p) = true)
  /\ (PyStr.mem "services" (parts p) = true -> contains "service" (lower p) = true)
  /\ (PyStr.mem "utils" (parts p) = true -> contains "util" (lower p) = true)
  /\ (PyStr.mem "types" (parts p) = true -> contains "type" (lower p) = true)
  /\ (endswith ".test.ts" p = true -> contains "test" (lower p) = true)
  /\ (endswith ".test.tsx" p = true -> contains "test" (lower p) = true).
Proof.
  repeat split.
  - intros H. apply (part_gives_substring _ "component" "s" _ H). reflexivity.
  - intros H. apply (part_gives_substring _ "hook" "s" _ H). reflexivity.
  - intros H. apply (part_gives_substring _ "service" "s" _ H). reflexivity.
  - intros H. apply (part_gives_substring _ "util" "s" _ H). reflexivity.
  - intros H. apply (part_gives_substring _ "type" "s" _ H). reflexivity.
  - intros H. apply endswith_suffix in H. destruct H as [a ->].
    rewrite lower_append.
    change (lower ".test.ts") with ("." ++ "test" ++ ".ts")%string.
    rewrite <- append_assoc. apply contains_infix.
  - intros H. apply endswith_suffix in H. destruct H as [a ->].
    rewrite lower_append.
    change (lower ".test.tsx") with ("." ++ "test" ++ ".tsx")%string.
    rewrite <- append_assoc. apply contains_infix.
Qed.

Lemma component_and_suffix_tests_redundant_witness :
  PyStr.mem "hooks" (parts "src/hooks/x.ts") = true
  /\ contains "hook" (lower "src/hooks/x.ts") = true.
Proof.
  assert (H : PyStr.mem "hooks" (parts "src/hooks/x.ts") = true) by reflexivity.
  split; [exact H|].
  exact (proj1 (proj2 (component_and_suffix_tests_redundant "src/hooks/x.ts")) H).
Defined.

(** ** From the scan to the clusterer: the path string read back *)

Lemma valid_tree_dir entries :
  valid_tree (Dir entries) = forallb (fun e => valid_name (fst e) && valid_tree (snd e)) entries.
Proof.
  cbn [valid_tree]. induction entries as [|[name child] r IH]; [reflexivity|].
  cbn [forallb fst snd]. now rewrite <- IH.
Qed.

Lemma valid_tree_at n rel m :
  at_path n rel m -> valid_tree n = true ->
  Forall (fun name => valid_name name = true) rel /\ valid_tree m = true.
Proof.
  induction 1 as [n | entries name child rel m Hin Hat IH]; intros Hv.
  - split; [constructor | exact Hv].
  - rewrite valid_tree_dir, forallb_forall in Hv. specialize (Hv _ Hin).
    cbn [fst snd] in Hv. apply andb_true_iff in Hv. destruct Hv as [Hn Hc].
    destruct (IH Hc) as [Hrel Hm]. split; [constructor; assumption | exact Hm].
Qed.

Lemma split_on_no_slash (a : string) :
  no_slash a = true -> split_on "/" a = [a].
Proof.
  induction a as [|c a IH]; [reflexivity|].
  cbn [no_slash split_on]. intros H. apply andb_true_iff in H. destruct H as [Hc Ha].
  apply negb_true_iff in Hc. rewrite Hc, (IH Ha). reflexivity.
Qed.

Lemma split_on_segment (a t : string) :
  no_slash a = true ->
  split_on "/" (a ++ String "/" t) = a :: split_on "/" t.
Proof.
  induction a as [|c a IH]; [reflexivity|].
  cbn [no_slash]. intros H. apply andb_true_iff in H. destruct H as [Hc Ha].
  apply negb_true_iff in Hc.
  change (String c a ++ String "/" t)%string with (String c (a ++ String "/" t)%string).
  cbn [split_on]. rewrite Hc, (IH Ha). reflexivity.
Qed.

Lemma join_cons2 (sep a b : string) (r : list string) :
  join sep (a :: b :: r) = (a ++ sep ++ join sep (b :: r))%string.
Proof. reflexivity. Qed.

Lemma split_join (l : list string) :
  l <> [] -> Forall (fun a => no_slash a = true) l ->
  split_on "/" (join "/" l) = l.
Proof.
  induction l as [|a [|b r] IH]; intros Hne Hall; [congruence| |].
  - inversion Hall; subst. now apply split_on_no_slash.
  - inversion Hall as [|? ? Ha Hr]; subst.
    rewrite join_cons2.
    change ("/" ++ join "/" (b :: r))%string with (String "/" (join "/" (b :: r))).
    rewrite (split_on_segment _ _ Ha), IH; [reflexivity | discriminate | exact Hr].
Qed.

Lemma anchor_no_slash (c : ascii) (t : string) :
  Ascii.eqb c "/" = false -> anchor (String c t) = [].
Proof.
  intros H. destruct c as [[] [] [] [] [] [] [] []]; try reflexivity. discriminate H.
Qed.

Lemma valid_name_parts a :
  valid_name a = true ->
  a <> "" /\ a <> "." /\ no_slash a = true.
Proof.
  unfold valid_name. rewrite !andb_true_iff, !negb_true_iff, !String.eqb_neq. tauto.
Qed.

(** [Path(str(p)).parts] gives back a relative path made of file names. *)
Lemma parts_path_str (rel : Path) :
  rel <> [] -> Forall (fun name => valid_name name = true) rel ->
  path_str rel = join "/" rel /\ parts (join "/" rel) = rel.
Proof.
  intros Hne Hall.
  destruct rel as [|a r]; [congruence|].
  assert (Ha : valid_name a = true) by (inversion Hall; assumption).
  destruct (valid_name_parts _ Ha) as (Ha1 & Ha2 & Ha3).
  destruct a as [|c a]; [congruence|].
  assert (Hc : Ascii.eqb c "/" = false).
  { cbn [no_slash] in Ha3. apply andb_true_iff in Ha3. now apply negb_true_iff. }
  split.
  - unfold path_str.
    assert (E1 : String.eqb (String c a) "/" = false).
    { apply String.eqb_neq. intros [= -> _]. discriminate Hc. }
    assert (E2 : String.eqb (String c a) "//" = false).
    { apply String.eqb_neq. intros [= -> _]. discriminate Hc. }
    now rewrite E1, E2.
  - unfold parts.
    assert (Hanchor : anchor (join "/" (String c a :: r)) = []).
    { destruct r as [|b r]; [apply anchor_no_slash, Hc|].
      rewrite join_cons2. apply anchor_no_slash, Hc. }
    rewrite Hanchor, split_join.
    + cbn [app]. apply filter_all. intros y Hy.
      rewrite Forall_forall in Hall. specialize (Hall y Hy).
      unfold valid_name in Hall. apply andb_true_iff in Hall. apply Hall.
    + discriminate.
    + apply Forall_forall. intros y Hy.
      rewrite Forall_forall in Hall. apply valid_name_parts, Hall, Hy.
Qed.

Lemma fallback_key_found (x : string) (ps : Path) :
  In x ps -> PyStr.mem x ["."; ".."; "src"] = false -> fallback_key ps <> None.
Proof.
  induction ps as [|c r IH]; [intros []|].
  intros [-> | Hin] Hx; cbn [fallback_key].
  - rewrite Hx. discriminate.
  - destruct (negb (PyStr.mem c ["."; ".."; "src"])); [discriminate | now apply IH].
Qed.

Lemma last_in {A : Type} (l : list A) (d : A) : l <> [] -> In (last l d) l.
Proof.
  induction l as [|x [|y r] IH]; intros H; [congruence | now left | right].
  apply IH. discriminate.
Qed.

(** X9. A record of a scan of a tree of file names keeps in [path] the names
    under which the file is reached: the clusterer, parsing that string,
    reads these very names as its parts.  For extensions that the glob
    matches as literal suffixes the last part ends with the extension
    recorded, and with the default extensions the fallback loop always finds
    a part to capitalize: [Other] is not a default it falls back on for a
    scanned file. *)
Theorem scanned_path_parts (fs : fsys) (repo_path : string)
    (extensions : option (list string)) (tree : node) (r : file_info) :
  fs (parts repo_path) = Some tree ->
  valid_tree tree = true ->
  In r (scan_code_files fs repo_path extensions) ->
  (exists n, at_path tree (parts (path r)) n /\ read_text n <> None)
  /\ parts (path r) <> []
  /\ path_str (parts (path r)) = path r
  /\ (Forall (fun ext => literal_extension ext = true)
             (match extensions with None => default_extensions | Some l => l end) ->
      endswith (extension r) (last (parts (path r)) "") = true)
  /\ (extensions = None -> fallback_key (parts (path r)) <> None).
Proof.
  intros Hfs Hv Hin.
  destruct (scan_record_origin _ _ _ _ Hin)
    as (tree' & rel & text & Hfs' & Hne & Hat & Hext & Hname & Hpath & _).
  rewrite Hfs in Hfs'. injection Hfs' as <-.
  destruct (valid_tree_at _ _ _ Hat Hv) as [Hrel _].
  destruct (parts_path_str rel Hne Hrel) as [Hstr Hparts].
  rewrite Hpath, Hstr, Hparts.
  split; [exists (File (Some text)); split; [exact Hat | discriminate]|].
  split; [exact Hne|]. split; [now rewrite <- Hstr|]. split; [intros _; exact Hname|].
  intros ->. apply (fallback_key_found (last rel "")); [apply last_in, Hne|].
  clear - Hext Hname. revert Hext Hname.
  generalize (extension r) as ext. intros ext Hext Hname.
  destruct (last rel "") as [|c s] eqn:E.
  - exfalso. cbn in Hext.
    repeat (destruct Hext as [<- | Hext]; [vm_compute in Hname; discriminate Hname|]).
    exact Hext.
  - destruct (PyStr.mem (String c s) ["."; ".."; "src"]) eqn:M; [|reflexivity].
    exfalso. apply mem_in in M. cbn in Hext, M.
    destruct M as [M | [M | [M | []]]]; rewrite <- M in Hname;
      repeat (destruct Hext as [<- | Hext]; [vm_compute in Hname; discriminate Hname|]);
      exact Hext.
Qed.

Lemma scanned_path_parts_witness :
  valid_tree Sample.tree = true
  /\ Forall (fun r => parts (path r) <> [] /\ fallback_key (parts (path r)) <> None)
            (scan_code_files Sample.files "proj" None).
Proof.
  split; [reflexivity|].
  apply Forall_forall. intros r Hin.
  pose proof (scanned_path_parts Sample.files "proj" None Sample.tree r
                eq_refl eq_refl Hin) as (_ & H1 & _ & _ & H2).
  split; [exact H1 | exact (H2 eq_refl)].
Defined.

(** ** Diagnostics *)

Lemma stdout_of_app (a b : list event) : stdout_of (a ++ b) = stdout_of a ++ stdout_of b.
Proof. unfold stdout_of. apply flat_map_app. Qed.

Lemma stderr_of_app (a b : list event) : stderr_of (a ++ b) = stderr_of a ++ stderr_of b.
Proof. unfold stderr_of. apply flat_map_app. Qed.

Lemma stdout_of_logs (l : list event) : Forall is_log l -> stdout_of l = [].
Proof.
  induction 1 as [|e l [m ->] _ IH]; [reflexivity|]. cbn. exact IH.
Qed.

Lemma Forall_flat_map {A B : Type} (P : B -> Prop) (g : A -> list B) (l : list A) :
  (forall x, In x l -> Forall P (g x)) -> Forall P (flat_map g l).
Proof.
  intros H. apply Forall_forall. intros y Hy. apply in_flat_map in Hy.
  destruct Hy as [x [Hx Hy]]. specialize (H x Hx). rewrite Forall_forall in H.
  apply H, Hy.
Qed.

Lemma scan_entry_log_logs ms repo c : Forall is_log (scan_entry_log ms repo c).
Proof.
  destruct c as [file_path n]. unfold scan_entry_log.
  destruct (skipped file_path); [constructor|].
  destruct (read_text n); [|repeat constructor; eexists; reflexivity].
  destruct (relative_to file_path repo); [constructor|].
  repeat constructor. eexists. reflexivity.
Qed.

Lemma scan_code_files_log_logs ms fs repo_path extensions :
  Forall is_log (scan_code_files_log ms fs repo_path extensions).
Proof.
  unfold scan_code_files_log. apply Forall_flat_map. intros ext _.
  apply Forall_flat_map. intros c _. apply scan_entry_log_logs.
Qed.

Lemma scan_arg_log_logs ms rt repo_path : Forall is_log (scan_arg_log ms rt repo_path).
Proof.
  destruct repo_path; try constructor. cbn [scan_arg_log].
  destruct (walk_failure rt (parts s)) as [w|]; [|apply scan_code_files_log_logs].
  apply Forall_forall. intros e He. apply in_map_iff in He.
  destruct He as [message [<- _]]. now exists message.
Qed.

Lemma dispatch_log_logs ms rt method params : Forall is_log (dispatch_log ms rt method params).
Proof.
  unfold dispatch_log.
  destruct (str_eq method "initialize"); [constructor|].
  destruct (str_eq method "tools/list"); [constructor|].
  destruct (str_eq method "tools/call"); [|constructor].
  destruct (py_get params "name" JNull) as [tool_name|]; [|constructor].
  destruct (py_get params "arguments" (JObj [])) as [tool_args|]; [|constructor].
  destruct (str_eq tool_name "index_repository").
  { destruct (py_get tool_args "path" (JStr ".")); [|constructor].
    constructor; [eexists; reflexivity | apply scan_arg_log_logs]. }
  destruct (str_eq tool_name "get_cluster_overview"); [|constructor].
  destruct (py_get tool_args "path" (JStr ".")); [apply scan_arg_log_logs | constructor].
Qed.

Lemma handle_request_log_logs ms rt request : Forall is_log (handle_request_log ms rt request).
Proof.
  destruct request; try constructor. cbn [handle_request_log].
  apply Forall_app. split; [apply dispatch_log_logs|].
  destruct (dispatch rt _ _ _); [constructor|].
  repeat constructor. eexists. reflexivity.
Qed.

Lemma serve_events_flat_map ms rt stdin : forall written,
  serve_events ms rt stdin written = written ++ flat_map (serve_line_events ms rt) stdin.
Proof.
  induction stdin as [|line stdin IH]; intros written; cbn [serve_events flat_map].
  - now rewrite app_nil_r.
  - rewrite IH, app_assoc. reflexivity.
Qed.

Lemma serve_line_events_stdout ms rt line :
  stdout_of (serve_line_events ms rt line) = serve_line rt line.
Proof.
  unfold serve_line_events, serve_line.
  destruct (json_loads rt line) as [request| |]; [|reflexivity|reflexivity].
  destruct (handle_request rt request) as [response | e];
    rewrite stdout_of_app, (stdout_of_logs _ (handle_request_log_logs ms rt request));
    reflexivity.
Qed.

(** X10. The stdout of the process is what the loop of responses writes: the
    diagnostics go to stderr only and never change or interleave with a
    response line. *)
Theorem diagnostics_leave_stdout_alone (ms : messages) (rt : runtime) (stdin : list string) :
  stdout_of (main_events ms rt stdin) = main rt stdin []
  /\ forall ms', stdout_of (main_events ms' rt stdin) = stdout_of (main_events ms rt stdin).
Proof.
  assert (E : forall m, stdout_of (main_events m rt stdin) = main rt stdin []).
  { intros m. unfold main_events. rewrite serve_events_flat_map, main_flat_map, stdout_of_app.
    cbn [app]. change (stdout_of [log _]) with (@nil string). cbn [app].
    induction stdin as [|line stdin IH]; [reflexivity|].
    cbn [flat_map]. now rewrite stdout_of_app, serve_line_events_stdout, IH. }
  split; [apply E|]. intros ms'. now rewrite !E.
Qed.

Lemma diagnostics_leave_stdout_alone_witness :
  let ms := mk_messages (fun _ => "Permission denied") (fun _ _ => "not in the subpath") in
  stdout_of (main_events ms Sample.rt ["init"; "garbage"; "list"; "bad-params"])
  = ["{...}"; "{...}"]
  /\ stderr_of (main_events ms Sample.rt ["init"; "garbage"; "list"; "bad-params"])
  = [ "[semantic-navigator] Semantic Navigator MCP Server starting...";
      "[semantic-navigator] Invalid JSON: garbage";
      "[semantic-navigator] Error: 'list' object has no attribute 'get'";
      "[semantic-navigator] Error handling request: 'NoneType' object has no attribute 'get'" ].
Proof.
  intros ms. split; [|reflexivity].
  rewrite (proj1 (diagnostics_leave_stdout_alone ms Sample.rt _)). reflexivity.
Defined.

Lemma stderr_of_logs (l : list event) :
  Forall (fun e => is_log e \/ exists line, e = Stdout line) l ->
  Forall (fun line => String.prefix "[semantic-navigator] " line = true) (stderr_of l).
Proof.
  induction 1 as [|e l [[m ->] | [line ->]] _ IH]; [constructor | | exact IH].
  cbn. constructor; [|exact IH]. apply prefix_append.
Qed.

Lemma serve_line_events_kinds ms rt line :
  Forall (fun e => is_log e \/ exists l, e = Stdout l) (serve_line_events ms rt line).
Proof.
  unfold serve_line_events.
  destruct (json_loads rt line) as [request| |].
  - assert (L : Forall (fun e => is_log e \/ exists l, e = Stdout l)
                       (handle_request_log ms rt request)).
    { eapply Forall_impl; [|apply handle_request_log_logs]. intros e He. now left. }
    destruct (handle_request rt request); apply Forall_app; (split; [exact L|]);
      (constructor; [|constructor]); [right | left]; eexists; reflexivity.
  - constructor; [|constructor]. left. eexists. reflexivity.
  - constructor; [|constructor]. left. eexists. reflexivity.
Qed.

(** X11. The first thing printed is the start-up diagnostic, every text that
    the code prints to stderr is printed by [log] and so begins with its
    prefix (one text may span several lines, as a logged input line keeps
    its newline), and every line that the iteration yields leaves a trace: a
    line on which [json.loads] raises a JSONDecodeError one [Invalid JSON]
    diagnostic; a line on which it raises another exception, and a decoded
    value that is no object, one [Error] diagnostic with the message of the
    exception; a request object its diagnostics, the last of them
    [Error handling request] with the message when the dispatch raised,
    followed by its response. *)
Theorem every_line_leaves_a_trace (ms : messages) (rt : runtime) (stdin : list string) :
  main_events ms rt stdin
    = log "Semantic Navigator MCP Server starting..."
      :: flat_map (serve_line_events ms rt) stdin
  /\ Forall (fun text => String.prefix "[semantic-navigator] " text = true)
            (stderr_of (main_events ms rt stdin))
  /\ (forall line,
        serve_line_events ms rt line <> []
        /\ (json_loads rt line = JSONDecodeError ->
            serve_line_events ms rt line = [log ("Invalid JSON: " ++ line)%string])
        /\ (forall e, json_loads rt line = LoadsError e ->
            serve_line_events ms rt line = [log ("Error: " ++ e)%string])
        /\ (forall v, json_loads rt line = Decoded v -> (forall o, v <> JObj o) ->
              serve_line_events ms rt line
              = [log ("Error: '" ++ type_name v ++ "' object has no attribute 'get'")%string])
        /\ (forall o, json_loads rt line = Decoded (JObj o) ->
              exists response,
                handle_request rt (JObj o) = Ok response
                /\ serve_line_events ms rt line
                   = handle_request_log ms rt (JObj o)
                     ++ [Stdout (json_dumps rt None response)]
                /\ stdout_of (handle_request_log ms rt (JObj o)) = []
                /\ (forall e,
                      dispatch rt (method_of o) (params_of o) (request_id_of o) = Raise e ->
                      exists before,
                        handle_request_log ms rt (JObj o)
                        = before ++ [log ("Error handling request: " ++ e)%string])))
  /\ 1 + length stdin <= length (main_events ms rt stdin).
Proof.
  assert (M : main_events ms rt stdin
              = log "Semantic Navigator MCP Server starting..."
                :: flat_map (serve_line_events ms rt) stdin).
  { unfold main_events. now rewrite serve_events_flat_map. }
  assert (N : forall line, serve_line_events ms rt line <> []).
  { intros line. unfold serve_line_events.
    destruct (json_loads rt line) as [request| |]; [|discriminate|discriminate].
    destruct (handle_request rt request); intros H; apply app_eq_nil in H;
      destruct H as [_ H]; discriminate H. }
  split; [exact M|]. split; [|split].
  - rewrite M. apply stderr_of_logs. constructor; [left; eexists; reflexivity|].
    apply Forall_flat_map. intros line _. apply serve_line_events_kinds.
  - intros line. split; [apply N|]. split; [|split; [|split]].
    + intros H. unfold serve_line_events. now rewrite H.
    + intros e H. unfold serve_line_events. now rewrite H.
    + intros v Hl Hv. unfold serve_line_events. rewrite Hl.
      destruct v; try reflexivity.
      exfalso. apply (Hv o). reflexivity.
    + intros o Hl. unfold serve_line_events. rewrite Hl, handle_request_object.
      eexists. split; [reflexivity|]. split; [reflexivity|].
      split; [apply stdout_of_logs, handle_request_log_logs|].
      intros e He. cbn [handle_request_log]. rewrite He. eexists. reflexivity.
  - rewrite M. cbn [length]. apply le_n_S. clear M.
    induction stdin as [|line stdin IH]; [apply Nat.le_refl|].
    cbn [flat_map length]. rewrite length_app.
    specialize (N line). destruct (serve_line_events ms rt line); [congruence|].
    cbn [length]. lia.
Qed.

Lemma every_line_leaves_a_trace_witness :
  let ms := mk_messages (fun _ => "Permission denied") (fun _ _ => "not in the subpath") in
  json_loads Sample.rt "garbage" = JSONDecodeError
  /\ serve_line_events ms Sample.rt "garbage" = [log "Invalid JSON: garbage"]
  /\ serve_line_events ms Sample.rt "digits"
     = [log "Error: Exceeds the limit (4300 digits) for integer string conversion"]
  /\ json_loads Sample.rt "list" = Decoded (JArr [])
  /\ serve_line_events ms Sample.rt "list"
     = [log "Error: 'list' object has no attribute 'get'"].
Proof.
  intros ms.
  pose proof (proj1 (proj2 (proj2 (every_line_leaves_a_trace ms Sample.rt [])))) as T.
  split; [reflexivity|].
  split; [exact (proj1 (proj2 (T "garbage")) eq_refl)|].
  split; [exact (proj1 (proj2 (proj2 (T "digits"))) _ eq_refl)|].
  split; [reflexivity|].
  refine (proj1 (proj2 (proj2 (proj2 (T "list")))) (JArr []) eq_refl _).
  intros o H. discriminate H.
Defined.

Lemma scan_entry_log_spec ms repo rel n :
  scan_entry_log ms repo (repo ++ rel, n) =
  if negb (skipped (repo ++ rel))
     && match read_text n with None => true | Some _ => false end
  then [log ("Skipping " ++ path_str (repo ++ rel)%list ++ ": "
             ++ read_error ms (repo ++ rel)%list)%string]
  else [].
Proof.
  unfold scan_entry_log. destruct (skipped (repo ++ rel)); [reflexivity|].
  destruct (read_text n); [|reflexivity]. now rewrite relative_to_app.
Qed.

Lemma scan_entry_count ms repo ext rel n :
  length (scan_entry repo ext (repo ++ rel, n))
  + length (scan_entry_log ms repo (repo ++ rel, n))
  = if skipped (repo ++ rel) then 0 else 1.
Proof.
  unfold scan_entry, scan_entry_log. destruct (skipped (repo ++ rel)); [reflexivity|].
  destruct (read_text n); [|reflexivity]. now rewrite relative_to_app.
Qed.

(** X12. The scan logs one [Skipping] line, with the path and the message of the
    exception, for each candidate that it does not skip and cannot read, in
    the order of the walk, and nothing else; a candidate with an excluded
    component is passed over in silence.  So the records and the diagnostics
    together count the candidates that are not excluded. *)
Theorem scan_logs_unreadable_files (ms : messages) (fs : fsys) (repo_path : string)
    (extensions : option (list string)) :
  let candidates :=
    flat_map (rglob fs (parts repo_path))
             (match extensions with None => default_extensions | Some l => l end) in
  scan_code_files_log ms fs repo_path extensions
  = map (fun c => log ("Skipping " ++ path_str (fst c) ++ ": "
                       ++ read_error ms (fst c))%string)
        (filter (fun c => negb (skipped (fst c))
                          && match read_text (snd c) with None => true | Some _ => false end)
                candidates)
  /\ length (scan_code_files fs repo_path extensions)
     + length (scan_code_files_log ms fs repo_path extensions)
     = length (filter (fun c => negb (skipped (fst c))) candidates).
Proof.
  intros candidates. subst candidates.
  unfold scan_code_files_log, scan_code_files.
  generalize (match extensions with None => default_extensions | Some l => l end).
  intros exts.
  assert (C : forall ext cs,
             (forall c, In c cs -> exists rel, fst c = parts repo_path ++ rel) ->
             flat_map (scan_entry_log ms (parts repo_path)) cs
             = map (fun c => log ("Skipping " ++ path_str (fst c) ++ ": "
                                  ++ read_error ms (fst c))%string)
                   (filter (fun c => negb (skipped (fst c))
                                     && match read_text (snd c) with
                                        | None => true
                                        | Some _ => false
                                        end) cs)
             /\ length (flat_map (scan_entry (parts repo_path) ext) cs)
                + length (flat_map (scan_entry_log ms (parts repo_path)) cs)
                = length (filter (fun c => negb (skipped (fst c))) cs)).
  { intros ext cs. induction cs as [|[p n] cs IH]; intros Hp; [split; reflexivity|].
    destruct (Hp (p, n) (or_introl eq_refl)) as [rel E]. cbn [fst] in E. subst p.
    destruct IH as [IH1 IH2]; [intros c Hc; apply Hp; now right|].
    cbn [flat_map filter fst snd]. split.
    - rewrite IH1, scan_entry_log_spec.
      destruct (negb (skipped (parts repo_path ++ rel))
                && match read_text n with None => true | Some _ => false end);
        reflexivity.
    - rewrite !length_app.
      pose proof (scan_entry_count ms (parts repo_path) ext rel n) as Hc.
      destruct (skipped (parts repo_path ++ rel)); cbn [negb length] in *; lia. }
  induction exts as [|ext exts [IH1 IH2]]; [split; reflexivity|].
  cbn [flat_map].
  destruct (C ext (rglob fs (parts repo_path) ext)) as [C1 C2].
  { intros [p n] Hc. destruct (rglob_at _ _ _ _ _ Hc) as (tree & rel & _ & _ & -> & _).
    now exists rel. }
  split.
  - now rewrite filter_app, map_app, C1, IH1.
  - rewrite filter_app, !length_app. lia.
Qed.

Lemma scan_logs_unreadable_files_witness :
  let ms := mk_messages (fun _ => "Permission denied") (fun _ _ => "not in the subpath") in
  scan_code_files_log ms Sample.files "proj" None
  = [log "Skipping proj/src/locked.py: Permission denied"]
  /\ length (scan_code_files Sample.files "proj" None) = 3.
Proof.
  intros ms. split; [|reflexivity].
  rewrite (proj1 (scan_logs_unreadable_files ms Sample.files "proj" None)).
  reflexivity.
Defined.
